(** * SPI-NOR transaction layer of the m25p80 flash driver

    A shallow embedding of [drivers/mtd/devices/m25p80.c]: the scratch
    command buffer, the address encoder [m25p_addr2cmd], and the five
    operations that assemble SPI transfers and hand them to the SPI core
    ([m25p80_read_reg], [m25p80_write_reg], [m25p80_write], [m25p80_read],
    [m25p80_erase]).

    C integers are [Z] with the conversions of their types written out,
    the command array is a [list Z] of bytes updated by index, and what
    the file takes from the rest of the kernel (the protocol macros, the
    SPI core) is gathered in the class [Platform]; the SPI core is any
    function from the messages seen so far and the current message to a
    reply. *)

From Stdlib Require Import ZArith Lia Bool.
From stdpp Require Import base list strings.

Local Open Scope Z_scope.
Local Set Default Proof Using "Type".

(** ** Integer types of the C source *)

Definition u8 (x : Z) : Z := x mod 2 ^ 8.
Definition u32 (x : Z) : Z := x mod 2 ^ 32.
(** [int]: two's complement on 32 bits; an overflowing sum wraps. *)
Definition s32 (x : Z) : Z := (x + 2 ^ 31) mod 2 ^ 32 - 2 ^ 31.
Definition INT_MIN : Z := - 2 ^ 31.
Definition INT_MAX : Z := 2 ^ 31 - 1.
(** [size_t] is as wide as a long: 32 or 64 bits, by platform. *)
Definition size_t (bits x : Z) : Z := x mod 2 ^ bits.

(** ** Constants *)

Definition MAX_CMD_SIZE : Z := 16.
(** From [linux/errno.h] and [linux/mtd/spi-nor.h]. *)
Definition EINVAL : Z := 22.
Definition SPINOR_OP_AAI_WP : Z := 0xad.

(** ** Data *)

(** What an [spi_transfer] buffer pointer can refer to in this driver:
    nothing, [&flash->command[off]], or the buffer the caller passed. *)
Inductive buffer : Type :=
  | NULL
  | command_at (off : Z)
  | caller_buf.

Global Instance buffer_eq_dec : EqDecision buffer.
Proof. solve_decision. Defined.

(** The fields of [struct spi_transfer] the driver sets. *)
Record spi_transfer : Type := mk_transfer {
  tx_buf : buffer;
  rx_buf : buffer;
  len : Z;
  tx_nbits : Z;
  rx_nbits : Z
}.

Global Instance spi_transfer_eq_dec : EqDecision spi_transfer.
Proof. solve_decision. Defined.

(** One element of an array after [memset(xfers, 0, sizeof(xfers))]. *)
Definition xfer_zero : spi_transfer := mk_transfer NULL NULL 0 0 0.

Definition set_len (n : Z) (x : spi_transfer) : spi_transfer :=
  mk_transfer (tx_buf x) (rx_buf x) n (tx_nbits x) (rx_nbits x).
(** [x.len += n], on [unsigned]. *)
Definition add_len (n : Z) (x : spi_transfer) : spi_transfer :=
  set_len (u32 (len x + n)) x.
Definition set_tx (b : buffer) (nbits : Z) (x : spi_transfer) : spi_transfer :=
  mk_transfer b (rx_buf x) (len x) nbits (rx_nbits x).
Definition set_rx (b : buffer) (nbits : Z) (x : spi_transfer) : spi_transfer :=
  mk_transfer (tx_buf x) b (len x) (tx_nbits x) nbits.

(** A message as the SPI core receives it: the transfers, and the bytes
    their pointers lead to at that moment. *)
Record spi_message : Type := mk_message {
  transfers : list spi_transfer;
  command_bytes : list Z;
  caller_bytes : list Z
}.

(** What the SPI core answers: the status [spi_sync] returns, the
    [actual_length] it leaves in the message, and the bytes it received. *)
Record spi_reply : Type := mk_reply {
  status : Z;
  actual_length : Z;
  rx_bytes : list Z
}.

(** [struct m25p]: the command array, and the messages handed to the SPI
    device so far (oldest first).  C gives no meaning to an access past
    the end of an array: the model drops the bytes that do not fit and
    raises [overrun]. *)
Record m25p : Type := mk_m25p {
  command : list Z;
  spi : list spi_message;
  overrun : bool
}.

(** The fields of [struct spi_nor] the driver reads.  The widths and
    opcodes are [u8] in C; here they are integers, and each statement
    below says which range it needs. *)
Record spi_nor : Type := mk_nor {
  addr_width : Z;
  read_opcode : Z;
  program_opcode : Z;
  erase_opcode : Z;
  read_dummy : Z;
  reg_proto : Z;
  read_proto : Z;
  write_proto : Z;
  sst_write_second : bool
}.

(** ** Memory operations *)

(** Bytes [bs] stored at [flash->command + off].  The driver only uses
    the offsets 0 to 4 and [1 + addr_width]. *)
Definition cmd_store (off : Z) (bs : list Z) (flash : m25p) : m25p :=
  mk_m25p (list_inserts (Z.to_nat off) (u8 <$> bs) (command flash))
          (spi flash)
          (overrun flash
           || (off <? 0)
           || (Z.of_nat (length (command flash)) <? off + Z.of_nat (length bs))).

(** [flash->command[i] = v]. *)
Definition cmd_set (i v : Z) (flash : m25p) : m25p := cmd_store i [v] flash.

(** [memset(flash->command + off, c, n)]. *)
Definition cmd_memset (off c n : Z) (flash : m25p) : m25p :=
  cmd_store off (replicate (Z.to_nat n) c) flash.

(** [n] bytes read at [&flash->command[off]]. *)
Definition cmd_load (off n : Z) (flash : m25p) : list Z :=
  take (Z.to_nat n) (drop (Z.to_nat off) (command flash)).

(** [memcpy(&flash->command[off], src, n)]. *)
Definition memcpy_to_cmd (off : Z) (src : list Z) (n : Z) (flash : m25p) : m25p :=
  let f := cmd_store off (take (Z.to_nat n) src) flash in
  mk_m25p (command f) (spi f)
          (overrun f || (Z.of_nat (length src) <? n)
           || (Z.of_nat (length (command flash)) <? off + n)).

(** [memcpy(dst, &flash->command[off], n)]: the new [dst], and the
    driver with [overrun] raised when either side is too short. *)
Definition memcpy_from_cmd (dst : list Z) (off n : Z) (flash : m25p)
  : list Z * m25p :=
  (list_inserts 0 (cmd_load off n flash) dst,
   mk_m25p (command flash) (spi flash)
           (overrun flash
            || (Z.of_nat (length (command flash)) <? off + n)
            || (Z.of_nat (length dst) <? n))).

(** [a >> n] on [unsigned int].  A count outside 0..31 has no defined
    result in C; [undef] stands for what the platform yields there. *)
Definition shr32 (undef : Z -> Z -> Z) (a n : Z) : Z :=
  if (0 <=? n) && (n <? 32) then Z.shiftr a n else u32 (undef a n).

(** The array has its declared size. *)
Definition command_sized (flash : m25p) : Prop :=
  length (command flash) = Z.to_nat MAX_CMD_SIZE.

(** A byte sequence read as a big-endian integer. *)
Definition be_decode (bytes : list Z) : Z :=
  foldl (fun acc b => acc * 256 + b) 0 bytes.

(** ** The platform

    What the driver takes from outside this file: the field extractors
    of [linux/mtd/spi-nor.h], the result of a shift whose count is out
    of range, the width of [size_t], and the SPI core with the
    controller behind it, which answers a message given the messages it
    handled before. *)
Class Platform : Type := {
  SNOR_PROTO_CODE_FROM_PROTO : Z -> Z;
  SNOR_PROTO_ADDR_FROM_PROTO : Z -> Z;
  SNOR_PROTO_DATA_FROM_PROTO : Z -> Z;
  undef_shift : Z -> Z -> Z;
  BITS_PER_LONG : Z;
  spi_bus : list spi_message -> spi_message -> spi_reply
}.

(** The same platform with every status the SPI core reports passed
    through [f]; lengths and received bytes are kept. *)
Definition with_status (f : Z -> Z) (pf : Platform) : Platform :=
  Build_Platform
    SNOR_PROTO_CODE_FROM_PROTO SNOR_PROTO_ADDR_FROM_PROTO
    SNOR_PROTO_DATA_FROM_PROTO undef_shift BITS_PER_LONG
    (fun seen m =>
       let r := spi_bus seen m in
       mk_reply (f (status r)) (actual_length r) (rx_bytes r)).

(** ** Fixtures

    A 32-bit platform for the examples.  Protocols are numbered by three
    hexadecimal digits, the lanes of the opcode, address and data phases
    ([0x144] is SPI 1-4-4); an out-of-range shift yields [0xEE]; the
    controller answers every message the same way.  The device starts
    with [0xAA] in every byte of the command array. *)
Module Fixture.
Definition code_lanes (proto : Z) : Z := (proto / 256) mod 16.
Definition addr_lanes (proto : Z) : Z := (proto / 16) mod 16.
Definition data_lanes (proto : Z) : Z := proto mod 16.
Definition bus (st actual : Z) (rx : list Z)
  : list spi_message -> spi_message -> spi_reply :=
  fun _ _ => mk_reply st actual rx.
Definition platform (st actual : Z) (rx : list Z) : Platform :=
  Build_Platform code_lanes addr_lanes data_lanes
                 (fun _ _ => 0xEE) 32 (bus st actual rx).
Definition flash0 : m25p := mk_m25p (replicate 16 0xAA) [] false.
Definition EIO : Z := 5.
(** address width, read opcode, program opcode, erase opcode, dummy
    cycles, then the register, read and write protocols *)
Definition nor (width dummy proto : Z) : spi_nor :=
  mk_nor width 0x0b 0x02 0xd8 dummy 0x111 proto proto false.
(** the second half of an SST AAI word program *)
Definition nor_aai_second : spi_nor :=
  mk_nor 3 0x0b SPINOR_OP_AAI_WP 0xd8 0 0x111 0x111 0x111 true.
Definition working : Platform := platform 0 260 [1; 2; 3].
Definition failing : Platform := platform (- EIO) 0 [].
End Fixture.

Section Driver.

Context {pf : Platform}.

(** Received bytes land in the [rx_buf] of each transfer, in order. *)
Fixpoint deliver (xfers : list spi_transfer) (data : list Z)
    (flash : m25p) (buf : list Z) : m25p * list Z :=
  match xfers with
  | [] => (flash, buf)
  | x :: rest =>
      let n := Z.to_nat (len x) in
      match rx_buf x with
      | NULL => deliver rest data flash buf
      | command_at off =>
          deliver rest (drop n data) (cmd_store off (take n data) flash) buf
      | caller_buf =>
          deliver rest (drop n data) flash
                  (list_inserts 0 (u8 <$> take n data) buf)
      end
  end.

(** [spi_message_init_with_transfers] followed by [spi_sync]: one call of
    the SPI core.  Returns its reply, the driver state with the message
    logged and the received bytes stored, and the caller's buffer. *)
Definition spi_sync (flash : m25p) (buf : list Z) (xfers : list spi_transfer)
  : spi_reply * m25p * list Z :=
  let m := mk_message xfers (command flash) buf in
  let r := spi_bus (spi flash) m in
  let logged := mk_m25p (command flash) (spi flash ++ [m]) (overrun flash) in
  let '(flash', buf') := deliver xfers (rx_bytes r) logged buf in
  (mk_reply (s32 (status r)) (u32 (actual_length r)) (rx_bytes r), flash', buf').

(** [spi_sync_transfer(spi, xfers, num_xfers)]: the status of the call. *)
Definition spi_sync_transfer (flash : m25p) (buf : list Z)
    (xfers : list spi_transfer) (num_xfers : nat) : Z * m25p * list Z :=
  let '(r, flash', buf') := spi_sync flash buf (take num_xfers xfers) in
  (status r, flash', buf').

(** Modelled from the spec: [spi_write] of [linux/spi/spi.h], missing from
    this source tree; the transport executes the staged bytes as one
    transmit phase of the given length, with the lane width left at its
    default. *)
Definition spi_write (flash : m25p) (off n : Z) : Z * m25p :=
  let t := set_len (u32 n) (set_tx (command_at off) 0 xfer_zero) in
  let '(ret, flash', _) := spi_sync_transfer flash [] [t] 1 in
  (ret, flash').

(** ** The driver *)

Definition m25p80_proto2nbits (proto : Z) : Z * Z * Z * Z :=
  (0,
   u32 (SNOR_PROTO_CODE_FROM_PROTO proto),
   u32 (SNOR_PROTO_ADDR_FROM_PROTO proto),
   u32 (SNOR_PROTO_DATA_FROM_PROTO proto)).

Definition m25p80_read_reg (nor : spi_nor) (flash : m25p)
    (code : Z) (val : list Z) (len : Z) : Z * m25p * list Z :=
  (* Check the total length of command op code and data. *)
  if s32 (len + 1) >? MAX_CMD_SIZE then (- EINVAL, flash, val)
  else
    let '(ret, code_nbits, _, data_nbits) := m25p80_proto2nbits (reg_proto nor) in
    if ret <? 0 then (ret, flash, val)
    else
      let xfers := replicate 2 xfer_zero in
      let flash := cmd_set 0 code flash in
      let xfers := alter (set_len 1) 0%nat xfers in
      let xfers := alter (set_tx (command_at 0) code_nbits) 0%nat xfers in
      let xfers := alter (set_len (u32 len)) 1%nat xfers in
      let xfers := alter (set_rx (command_at 1) data_nbits) 1%nat xfers in
      (* Process command. *)
      let '(ret, flash, _) := spi_sync_transfer flash [] xfers 2 in
      if ret <? 0 then (ret, flash, val)
      else
        let '(val, flash) :=
          memcpy_from_cmd val 1 (size_t BITS_PER_LONG len) flash in
        (ret, flash, val).

Definition m25p_addr2cmd (nor : spi_nor) (addr : Z) (flash : m25p) : m25p :=
  let addr := u32 addr in
  (* opcode is in cmd[0] *)
  let flash := cmd_set 1 (shr32 undef_shift addr (s32 (addr_width nor * 8 - 8))) flash in
  let flash := cmd_set 2 (shr32 undef_shift addr (s32 (addr_width nor * 8 - 16))) flash in
  let flash := cmd_set 3 (shr32 undef_shift addr (s32 (addr_width nor * 8 - 24))) flash in
  let flash := cmd_set 4 (shr32 undef_shift addr (s32 (addr_width nor * 8 - 32))) flash in
  flash.

Definition m25p_cmdsz (nor : spi_nor) : Z := s32 (1 + addr_width nor).

Definition m25p80_write_reg (nor : spi_nor) (flash : m25p)
    (opcode : Z) (buf : option (list Z)) (len : Z) : Z * m25p :=
  (* Check the total length of command op code and data. *)
  if bool_decide (buf <> None) && (s32 (len + 1) >? MAX_CMD_SIZE)
  then (- EINVAL, flash)
  else
    let '(ret, code_nbits, _, data_nbits) := m25p80_proto2nbits (reg_proto nor) in
    if ret <? 0 then (ret, flash)
    else
      let num_xfers := 1%nat in
      let xfers := replicate 2 xfer_zero in
      let flash := cmd_set 0 opcode flash in
      let xfers := alter (set_len 1) 0%nat xfers in
      let xfers := alter (set_tx (command_at 0) code_nbits) 0%nat xfers in
      let '(flash, xfers, num_xfers) :=
        match buf with
        | Some bytes =>
            let flash := memcpy_to_cmd 1 bytes (size_t BITS_PER_LONG len) flash in
            if data_nbits =? code_nbits
            then (flash,
                  alter (add_len len) 0%nat xfers,
                  num_xfers)
            else
              let xfers := alter (set_len (u32 len)) 1%nat xfers in
              let xfers := alter (set_tx (command_at 1) data_nbits) 1%nat xfers in
              (flash, xfers, S num_xfers)
        | None => (flash, xfers, num_xfers)
        end in
      (* Process command. *)
      let '(ret, flash, _) :=
        spi_sync_transfer flash [] xfers num_xfers in
      (ret, flash).

Definition m25p80_write (nor : spi_nor) (flash : m25p)
    (to len retlen : Z) (buf : list Z) : Z * m25p :=
  let num_xfers := 1%nat in
  let cmd_sz := m25p_cmdsz nor in
  let cmd_sz :=
    if (program_opcode nor =? SPINOR_OP_AAI_WP) && sst_write_second nor
    then 1 else cmd_sz in
  (* Get transfer protocols. *)
  let '(ret, code_nbits, addr_nbits, data_nbits) :=
    m25p80_proto2nbits (write_proto nor) in
  if ret <? 0 then (retlen, flash)
  else
    (* Set up transfers. *)
    let xfers := replicate 3 xfer_zero in
    let flash := cmd_set 0 (program_opcode nor) flash in
    let xfers := alter (set_len 1) 0%nat xfers in
    let xfers := alter (set_tx (command_at 0) code_nbits) 0%nat xfers in
    let '(flash, xfers, num_xfers) :=
      if cmd_sz >? 1 then
        let flash := m25p_addr2cmd nor to flash in
        if addr_nbits =? code_nbits
        then (flash, alter (add_len (addr_width nor)) 0%nat xfers, num_xfers)
        else
          let xfers := alter (set_len (u32 (addr_width nor))) 1%nat xfers in
          let xfers := alter (set_tx (command_at 1) addr_nbits) 1%nat xfers in
          (flash, xfers, S num_xfers)
      else (flash, xfers, num_xfers) in
    let xfers := alter (set_len (u32 len)) num_xfers xfers in
    let xfers := alter (set_tx caller_buf data_nbits) num_xfers xfers in
    let num_xfers := S num_xfers in
    (* Process command. *)
    let '(m, flash, _) := spi_sync flash buf (take num_xfers xfers) in
    (size_t BITS_PER_LONG (retlen + u32 (actual_length m - cmd_sz)), flash).

(** Returns the status, [*retlen], the driver and the caller's buffer. *)
Definition m25p80_read (nor : spi_nor) (flash : m25p)
    (from len retlen : Z) (buf : list Z) : Z * Z * m25p * list Z :=
  let num_xfers := 1%nat in
  let dummy := u32 (read_dummy nor) in
  (* Get transfer protocols. *)
  let '(ret, code_nbits, addr_nbits, data_nbits) :=
    m25p80_proto2nbits (read_proto nor) in
  if ret <? 0 then (ret, retlen, flash, buf)
  else
    (* convert the dummy cycles to the number of bytes *)
    let dummy := u32 (dummy * addr_nbits) / 8 in
    (* Set up transfers. *)
    let xfers := replicate 3 xfer_zero in
    let flash := cmd_set 0 (read_opcode nor) flash in
    let xfers := alter (set_len 1) 0%nat xfers in
    let xfers := alter (set_tx (command_at 0) code_nbits) 0%nat xfers in
    let flash := m25p_addr2cmd nor from flash in
    (* Clear all dummy/mode cycle bits. *)
    let flash := cmd_memset (1 + addr_width nor) 0 dummy flash in
    let '(xfers, num_xfers) :=
      if addr_nbits =? code_nbits
      then (alter (add_len (u32 (addr_width nor + dummy))) 0%nat xfers, num_xfers)
      else
        let xfers := alter (set_len (u32 (addr_width nor + dummy))) 1%nat xfers in
        let xfers := alter (set_tx (command_at 1) addr_nbits) 1%nat xfers in
        (xfers, S num_xfers) in
    let xfers := alter (set_len (u32 len)) num_xfers xfers in
    let xfers := alter (set_rx caller_buf data_nbits) num_xfers xfers in
    let num_xfers := S num_xfers in
    (* Process command. *)
    let '(m, flash, buf) := spi_sync flash buf (take num_xfers xfers) in
    (0,
     size_t BITS_PER_LONG (u32 (actual_length m - m25p_cmdsz nor - dummy)),
     flash, buf).

Definition m25p80_erase (nor : spi_nor) (flash : m25p) (offset : Z) : Z * m25p :=
  (* Set up command buffer. *)
  let flash := cmd_set 0 (erase_opcode nor) flash in
  let flash := m25p_addr2cmd nor offset flash in
  let '(_, flash) := spi_write flash 0 (m25p_cmdsz nor) in
  (0, flash).

End Driver.

(** ** Probing

    [m25p_probe] allocates the device, chooses the read and write modes
    from the capabilities of the SPI controller, picks the name under
    which the chip is looked up, and hands over to the spi-nor library
    and to the MTD core.  Both are taken from outside this file, with
    the hardware behind them and with the mode bits of
    [linux/mtd/spi-nor.h].  Installing the hooks and the driver data
    changes none of the calls and is not represented. *)

(** From [linux/errno.h] and [linux/spi/spi.h]. *)
Definition ENOMEM : Z := 12.
Definition SPI_RX_DUAL : Z := 0x400.
Definition SPI_RX_QUAD : Z := 0x800.

(** The fields of [struct spi_device] the probe reads. *)
Record spi_device : Type := mk_spi_device {
  mode : Z;
  modalias : string
}.

Record mtd_partition : Type := mk_mtd_partition {
  part_name : string;
  part_size : Z;
  part_offset : Z
}.

(** [struct flash_platform_data]; a null pointer is [None]. *)
Record flash_platform_data : Type := mk_flash_platform_data {
  name : option string;
  type : option string;
  parts : option (list mtd_partition);
  nr_parts : Z
}.

Record spi_nor_modes : Type := mk_spi_nor_modes {
  rd_modes : Z;
  wr_modes : Z
}.

(** [spi_nor_scan] sees the name already stored in [nor->mtd], the name
    of the chip and the modes; it answers with a status and the
    configured [spi_nor].  [mtd_device_parse_register] sees that
    [spi_nor] and the partitions. *)
Class SpiNorCore : Type := {
  SNOR_MODE_SLOW : Z;
  SNOR_MODE_1_1_1 : Z;
  SNOR_MODE_1_1_2 : Z;
  SNOR_MODE_1_1_4 : Z;
  spi_nor_scan : option string -> string -> spi_nor_modes -> Z * spi_nor;
  mtd_device_parse_register :
    spi_nor -> option (list mtd_partition) -> Z -> Z
}.

(** The calls a probe makes outside this file, in order. *)
Inductive probe_call : Type :=
  | scan_call (mtd_name : option string) (flash_name : string)
              (modes : spi_nor_modes)
  | register_call (nor : spi_nor) (parts : option (list mtd_partition))
                  (nr_parts : Z).

(** [kzalloc_ok] tells whether [devm_kzalloc] returns memory. *)
Definition m25p_probe {core : SpiNorCore} (kzalloc_ok : bool)
    (spi : spi_device) (data : option flash_platform_data)
  : Z * list probe_call :=
  let modes := mk_spi_nor_modes SNOR_MODE_SLOW SNOR_MODE_1_1_1 in
  if negb kzalloc_ok then (- ENOMEM, [])
  else
    let modes :=
      if negb (Z.land (mode spi) SPI_RX_QUAD =? 0)
      then mk_spi_nor_modes (Z.lor (rd_modes modes) SNOR_MODE_1_1_4)
                            (wr_modes modes)
      else if negb (Z.land (mode spi) SPI_RX_DUAL =? 0)
      then mk_spi_nor_modes (Z.lor (rd_modes modes) SNOR_MODE_1_1_2)
                            (wr_modes modes)
      else modes in
    let mtd_name :=
      match data with
      | Some d => match name d with Some n => Some n | None => None end
      | None => None
      end in
    (* respect "type" and ignore a "name" *)
    let flash_name :=
      match data with
      | Some d => match type d with Some t => t | None => modalias spi end
      | None => modalias spi
      end in
    let '(ret, nor) := spi_nor_scan mtd_name flash_name modes in
    if negb (ret =? 0) then (ret, [scan_call mtd_name flash_name modes])
    else
      let the_parts := match data with Some d => parts d | None => None end in
      let the_nr := match data with Some d => nr_parts d | None => 0 end in
      (mtd_device_parse_register nor the_parts the_nr,
       [scan_call mtd_name flash_name modes;
        register_call nor the_parts the_nr]).

(** More fixtures: a spi-nor library whose modes are the bits 0 to 3,
    whose scan knows one chip and whose registration succeeds; two
    controllers; platform data; and a device whose command array holds
    what an earlier operation left there. *)
Module MoreFixture.
Definition core : SpiNorCore :=
  Build_SpiNorCore 1 2 4 8
    (fun _ flash_name _ =>
       if String.eqb flash_name "m25p80" then (0, Fixture.nor 3 0 0x111)
       else (- 2, Fixture.nor 0 0 0))
    (fun _ _ _ => 0).
Definition quad_dual : spi_device := mk_spi_device 0xC00 "m25p80".
Definition plain : spi_device := mk_spi_device 0 "m25p80".
Definition board : flash_platform_data :=
  mk_flash_platform_data (Some "flash0") (Some "w25q32") None 0.
Definition used : m25p :=
  mk_m25p [0x02; 0x12; 0x34; 0x56; 0x78; 1; 2; 3; 4; 5; 6; 7; 8; 9; 10; 11]
          [] false.
End MoreFixture.

(** ** Integer and array facts *)

Local Arguments Z.shiftr : simpl never.
Local Arguments Z.modulo : simpl never.
Local Arguments Z.pow : simpl never.
Local Arguments Z.mul : simpl never.
Local Arguments Z.add : simpl never.
Local Arguments Z.sub : simpl never.

Lemma u32_range x : 0 <= u32 x < 2 ^ 32.
Proof. unfold u32. apply Z.mod_pos_bound. lia. Qed.

Lemma u32_id x : 0 <= x < 2 ^ 32 -> u32 x = x.
Proof. intros. unfold u32. apply Z.mod_small. lia. Qed.

Lemma s32_id x : INT_MIN <= x <= INT_MAX -> s32 x = x.
Proof.
  unfold s32, INT_MIN, INT_MAX. intros.
  rewrite Z.mod_small; lia.
Qed.

Lemma size_t_id bits x : 0 <= x < 2 ^ bits -> size_t bits x = x.
Proof. intros. unfold size_t. apply Z.mod_small. lia. Qed.

Lemma be_decode_3 a :
  0 <= a ->
  be_decode [u8 (Z.shiftr a 16); u8 (Z.shiftr a 8); u8 (Z.shiftr a 0)]
  = a mod 2 ^ 24.
Proof.
  intros Ha. unfold be_decode, u8. simpl.
  rewrite !Z.shiftr_div_pow2 by lia.
  change (2 ^ 16) with 65536. change (2 ^ 8) with 256.
  change (2 ^ 0) with 1. change (2 ^ 24) with 16777216.
  Z.div_mod_to_equations. lia.
Qed.

Lemma be_decode_4 a :
  0 <= a < 2 ^ 32 ->
  be_decode [u8 (Z.shiftr a 24); u8 (Z.shiftr a 16);
             u8 (Z.shiftr a 8); u8 (Z.shiftr a 0)] = a.
Proof.
  intros Ha. unfold be_decode, u8. simpl.
  rewrite !Z.shiftr_div_pow2 by lia.
  change (2 ^ 24) with 16777216. change (2 ^ 16) with 65536.
  change (2 ^ 8) with 256. change (2 ^ 0) with 1.
  change (2 ^ 32) with 4294967296 in Ha.
  Z.div_mod_to_equations. lia.
Qed.

Lemma byte_of_u32 a k :
  0 <= k ->
  u8 (Z.shiftr (u32 a) (8 * k)) = (a / 2 ^ (8 * k)) mod 256 \/ 4 <= k.
Proof.
  intros Hk. destruct (Z_lt_le_dec k 4) as [Hlt | Hge]; [left | now right].
  unfold u8, u32. rewrite Z.shiftr_div_pow2 by lia.
  assert (Hc : k = 0 \/ k = 1 \/ k = 2 \/ k = 3) by lia.
  change (2 ^ 8) with 256. change (2 ^ 32) with 4294967296.
  destruct Hc as [-> | [-> | [-> | ->]]].
  - change (2 ^ (8 * 0)) with 1. Z.div_mod_to_equations. lia.
  - change (2 ^ (8 * 1)) with 256. Z.div_mod_to_equations. lia.
  - change (2 ^ (8 * 2)) with 65536. Z.div_mod_to_equations. lia.
  - change (2 ^ (8 * 3)) with 16777216. Z.div_mod_to_equations. lia.
Qed.

(** A sized command array, spelled out byte by byte. *)
Ltac spell_command flash H :=
  destruct flash as [cmd log ov]; unfold command_sized in H; simpl in H;
  do 16 (destruct cmd as [| ? cmd]; [discriminate H |]);
  destruct cmd; [clear H | discriminate H].

Lemma cmd_set_command i v flash :
  command (cmd_set i v flash) = <[Z.to_nat i := u8 v]> (command flash).
Proof. reflexivity. Qed.

Lemma cmd_store_length off bs flash :
  length (command (cmd_store off bs flash)) = length (command flash).
Proof. apply length_inserts. Qed.

Lemma cmd_store_in_range off bs flash :
  0 <= off ->
  off + Z.of_nat (length bs) <= Z.of_nat (length (command flash)) ->
  overrun (cmd_store off bs flash) = overrun flash.
Proof.
  intros H0 H1. unfold cmd_store. simpl.
  replace (off <? 0) with false by (symmetry; apply Z.ltb_ge; lia).
  replace (_ <? off + _) with false by (symmetry; apply Z.ltb_ge; lia).
  now rewrite !orb_false_r.
Qed.

(** The bytes [cmd_memset] writes read back as written, when they fit. *)
Lemma cmd_memset_lookup off c n flash i :
  0 <= off -> 0 <= i < n ->
  off + n <= Z.of_nat (length (command flash)) ->
  command (cmd_memset off c n flash) !! Z.to_nat (off + i) = Some (u8 c).
Proof.
  intros Hoff Hi Hfit. unfold cmd_memset, cmd_store. simpl.
  rewrite list_lookup_inserts.
  - rewrite list_lookup_fmap, lookup_replicate_2; [reflexivity | lia].
  - rewrite length_fmap, length_replicate. lia.
  - lia.
Qed.

(** Dummy cycles to bytes, when the array can hold them. *)
Lemma dummy_bytes_exact cycles lanes room :
  0 <= cycles -> 0 <= lanes -> room <= 16 ->
  (cycles * lanes) / 8 <= room ->
  u32 (u32 cycles * lanes) / 8 = (cycles * lanes) / 8.
Proof.
  intros Hc Hl Hr Hfit.
  destruct (Z.eq_dec lanes 0) as [-> | Hne].
  - now rewrite !Z.mul_0_r.
  - assert (cycles * lanes < 136).
    { apply Z.nle_gt. intros Hge.
      assert (17 <= cycles * lanes / 8) by (apply Z.div_le_lower_bound; lia).
      lia. }
    assert (cycles < 136) by nia.
    rewrite (u32_id cycles) by (change (2 ^ 32) with 4294967296; lia).
    rewrite u32_id by (change (2 ^ 32) with 4294967296; nia).
    reflexivity.
Qed.

Lemma dummy_product_exact cycles lanes :
  0 <= cycles -> 0 <= lanes -> cycles * lanes < 2 ^ 32 ->
  u32 (u32 cycles * lanes) = cycles * lanes.
Proof.
  intros Hc Hl Hp. change (2 ^ 32) with 4294967296 in Hp.
  destruct (Z.eq_dec lanes 0) as [-> | Hne].
  - rewrite !Z.mul_0_r. reflexivity.
  - rewrite (u32_id cycles) by (change (2 ^ 32) with 4294967296; nia).
    apply u32_id. change (2 ^ 32) with 4294967296. nia.
Qed.

Section Properties.

Context {pf : Platform}.

(** ** The address encoder *)

Lemma m25p_addr2cmd_command nor addr flash :
  command (m25p_addr2cmd nor addr flash)
  = <[4%nat := u8 (shr32 undef_shift (u32 addr) (s32 (addr_width nor * 8 - 32)))]>
    (<[3%nat := u8 (shr32 undef_shift (u32 addr) (s32 (addr_width nor * 8 - 24)))]>
    (<[2%nat := u8 (shr32 undef_shift (u32 addr) (s32 (addr_width nor * 8 - 16)))]>
    (<[1%nat := u8 (shr32 undef_shift (u32 addr) (s32 (addr_width nor * 8 - 8)))]>
       (command flash)))).
Proof. reflexivity. Qed.

Lemma m25p_addr2cmd_length nor addr flash :
  length (command (m25p_addr2cmd nor addr flash)) = length (command flash).
Proof. rewrite m25p_addr2cmd_command. now rewrite !length_insert. Qed.

(** The staged bytes for a 3-byte and for a 4-byte address. *)
Lemma m25p_addr2cmd_bytes_3 nor addr flash c0 c1 c2 c3 c4 rest :
  addr_width nor = 3 ->
  command flash = c0 :: c1 :: c2 :: c3 :: c4 :: rest ->
  command (m25p_addr2cmd nor addr flash)
  = c0 :: u8 (Z.shiftr (u32 addr) 16) :: u8 (Z.shiftr (u32 addr) 8)
       :: u8 (Z.shiftr (u32 addr) 0)
       :: u8 (u32 (undef_shift (u32 addr) (-8))) :: rest.
Proof. intros Hw Hc. rewrite m25p_addr2cmd_command, Hw, Hc. reflexivity. Qed.

Lemma m25p_addr2cmd_bytes_4 nor addr flash c0 c1 c2 c3 c4 rest :
  addr_width nor = 4 ->
  command flash = c0 :: c1 :: c2 :: c3 :: c4 :: rest ->
  command (m25p_addr2cmd nor addr flash)
  = c0 :: u8 (Z.shiftr (u32 addr) 24) :: u8 (Z.shiftr (u32 addr) 16)
       :: u8 (Z.shiftr (u32 addr) 8) :: u8 (Z.shiftr (u32 addr) 0) :: rest.
Proof. intros Hw Hc. rewrite m25p_addr2cmd_command, Hw, Hc. reflexivity. Qed.

Lemma u32_mod_24 addr : addr mod 2 ^ 24 = u32 addr mod 2 ^ 24.
Proof.
  unfold u32. change (2 ^ 32) with (2 ^ 24 * 2 ^ 8).
  rewrite Z.rem_mul_r by lia. rewrite Z.mul_comm, Z.mod_add by lia.
  now rewrite Z.mod_mod by lia.
Qed.

(** The address bytes read back as a big-endian integer. *)
Lemma m25p_addr2cmd_decode (nor : spi_nor) (addr : Z) (flash : m25p) :
  command_sized flash ->
  addr_width nor = 3 \/ addr_width nor = 4 ->
  be_decode (cmd_load 1 (addr_width nor) (m25p_addr2cmd nor addr flash))
  = addr mod 2 ^ (addr_width nor * 8).
Proof.
  intros Hsz Hw. spell_command flash Hsz.
  pose proof (u32_range addr) as Ha.
  destruct Hw as [Hw | Hw]; rewrite Hw; unfold cmd_load.
  - erewrite m25p_addr2cmd_bytes_3; [| exact Hw | reflexivity].
    change (2 ^ (3 * 8)) with (2 ^ 24). rewrite u32_mod_24.
    apply (be_decode_3 (u32 addr)). lia.
  - erewrite m25p_addr2cmd_bytes_4; [| exact Hw | reflexivity].
    change (2 ^ (4 * 8)) with (2 ^ 32). fold (u32 addr).
    apply (be_decode_4 (u32 addr)). lia.
Qed.

(** C2. For every address and every address width [w] of 3 or 4,
    [m25p_addr2cmd] leaves in bytes 1..w of the command array the [w]
    low-order bytes of the address, most significant first: read back as
    a big-endian integer they give the address modulo [2 ^ (w * 8)];
    the opcode in byte 0 is kept. *)
Theorem m25p_addr2cmd_big_endian (nor : spi_nor) (addr : Z) (flash : m25p) :
  command_sized flash ->
  addr_width nor = 3 \/ addr_width nor = 4 ->
  let w := addr_width nor in
  let bytes := cmd_load 1 w (m25p_addr2cmd nor addr flash) in
  length bytes = Z.to_nat w
  /\ be_decode bytes = addr mod 2 ^ (w * 8)
  /\ (forall i, 1 <= i <= w ->
        command (m25p_addr2cmd nor addr flash) !! Z.to_nat i
        = Some ((addr / 2 ^ (8 * (w - i))) mod 256))
  /\ command (m25p_addr2cmd nor addr flash) !! 0%nat = command flash !! 0%nat.
Proof.
  intros Hsz Hw w bytes. subst bytes w.
  split; [| split; [apply m25p_addr2cmd_decode; assumption |]].
  - unfold cmd_load. rewrite length_take, length_drop, m25p_addr2cmd_length.
    unfold command_sized, MAX_CMD_SIZE in Hsz. rewrite Hsz.
    destruct Hw as [-> | ->]; reflexivity.
  - spell_command flash Hsz.
    pose proof (byte_of_u32 addr 0) as B0. pose proof (byte_of_u32 addr 1) as B1.
    pose proof (byte_of_u32 addr 2) as B2. pose proof (byte_of_u32 addr 3) as B3.
    destruct B0 as [B0 | ?]; [lia | | lia]. destruct B1 as [B1 | ?]; [lia | | lia].
    destruct B2 as [B2 | ?]; [lia | | lia]. destruct B3 as [B3 | ?]; [lia | | lia].
    change (8 * 0) with 0 in B0. change (8 * 1) with 8 in B1.
    change (8 * 2) with 16 in B2. change (8 * 3) with 24 in B3.
    destruct Hw as [Hw | Hw]; rewrite Hw.
    + erewrite m25p_addr2cmd_bytes_3; [| exact Hw | reflexivity].
      split; [| reflexivity].
      intros i Hi.
      assert (Hc : i = 1 \/ i = 2 \/ i = 3) by lia.
      destruct Hc as [-> | [-> | ->]].
      * change (8 * (3 - 1)) with 16. rewrite <- B2. reflexivity.
      * change (8 * (3 - 2)) with 8. rewrite <- B1. reflexivity.
      * change (8 * (3 - 3)) with 0. rewrite <- B0. reflexivity.
    + erewrite m25p_addr2cmd_bytes_4; [| exact Hw | reflexivity].
      split; [| reflexivity].
      intros i Hi.
      assert (Hc : i = 1 \/ i = 2 \/ i = 3 \/ i = 4) by lia.
      destruct Hc as [-> | [-> | [-> | ->]]].
      * change (8 * (4 - 1)) with 24. rewrite <- B3. reflexivity.
      * change (8 * (4 - 2)) with 16. rewrite <- B2. reflexivity.
      * change (8 * (4 - 3)) with 8. rewrite <- B1. reflexivity.
      * change (8 * (4 - 4)) with 0. rewrite <- B0. reflexivity.
Qed.

(** ** One call of the SPI core *)

Lemma deliver_spi xs : forall data flash buf,
  spi (fst (deliver xs data flash buf)) = spi flash.
Proof.
  induction xs as [| x xs IH]; intros data flash buf; simpl; [reflexivity |].
  destruct (rx_buf x); rewrite IH; reflexivity.
Qed.

(** [spi_sync] hands exactly one message to the SPI core: the transfers
    given, with the bytes staged at that moment. *)
Lemma spi_sync_spi flash buf xfers :
  spi (snd (fst (spi_sync flash buf xfers)))
  = spi flash ++ [mk_message xfers (command flash) buf].
Proof.
  unfold spi_sync.
  pose proof (deliver_spi xfers
    (rx_bytes (spi_bus (spi flash) (mk_message xfers (command flash) buf)))
    (mk_m25p (command flash)
             (spi flash ++ [mk_message xfers (command flash) buf])
             (overrun flash)) buf) as H.
  destruct (deliver _ _ _ _) as [f b]. exact H.
Qed.

Lemma spi_sync_reply flash buf xfers :
  let r := spi_bus (spi flash) (mk_message xfers (command flash) buf) in
  fst (fst (spi_sync flash buf xfers))
  = mk_reply (s32 (status r)) (u32 (actual_length r)) (rx_bytes r).
Proof.
  unfold spi_sync. destruct (deliver _ _ _ _) as [f b]. reflexivity.
Qed.

(** Transfers that only transmit, or receive into the caller's buffer,
    leave the command array and the overrun flag alone. *)
Lemma deliver_no_command_rx xs : forall data flash buf,
  Forall (fun x => rx_buf x = NULL \/ rx_buf x = caller_buf) xs ->
  command (fst (deliver xs data flash buf)) = command flash
  /\ overrun (fst (deliver xs data flash buf)) = overrun flash.
Proof.
  induction xs as [| x xs IH]; intros data flash buf Hall; simpl; [easy |].
  inversion Hall as [| ? ? Hx Hxs]; subst.
  destruct Hx as [Hx | Hx]; rewrite Hx; apply IH; assumption.
Qed.

Lemma spi_sync_no_command_rx flash buf xfers :
  Forall (fun x => rx_buf x = NULL \/ rx_buf x = caller_buf) xfers ->
  command (snd (fst (spi_sync flash buf xfers))) = command flash
  /\ overrun (snd (fst (spi_sync flash buf xfers))) = overrun flash.
Proof.
  intros Hall. unfold spi_sync.
  pose proof (deliver_no_command_rx xfers
    (rx_bytes (spi_bus (spi flash) (mk_message xfers (command flash) buf)))
    (mk_m25p (command flash)
             (spi flash ++ [mk_message xfers (command flash) buf])
             (overrun flash)) buf Hall) as H.
  destruct (deliver _ _ _ _) as [f b]. exact H.
Qed.

(** ** Bulk read *)

(** The command bytes [m25p80_read] stages, and the transfers it builds. *)
Lemma m25p80_read_eq nor flash from len retlen buf :
  let code_nbits := u32 (SNOR_PROTO_CODE_FROM_PROTO (read_proto nor)) in
  let addr_nbits := u32 (SNOR_PROTO_ADDR_FROM_PROTO (read_proto nor)) in
  let data_nbits := u32 (SNOR_PROTO_DATA_FROM_PROTO (read_proto nor)) in
  let dummy := u32 (u32 (read_dummy nor) * addr_nbits) / 8 in
  let staged :=
    cmd_memset (1 + addr_width nor) 0 dummy
      (m25p_addr2cmd nor from (cmd_set 0 (read_opcode nor) flash)) in
  let xfers :=
    if addr_nbits =? code_nbits
    then [mk_transfer (command_at 0) NULL
            (u32 (1 + u32 (addr_width nor + dummy))) code_nbits 0;
          mk_transfer NULL caller_buf (u32 len) 0 data_nbits]
    else [mk_transfer (command_at 0) NULL 1 code_nbits 0;
          mk_transfer (command_at 1) NULL
            (u32 (addr_width nor + dummy)) addr_nbits 0;
          mk_transfer NULL caller_buf (u32 len) 0 data_nbits] in
  let r := spi_sync staged buf xfers in
  m25p80_read nor flash from len retlen buf
  = (0,
     size_t BITS_PER_LONG
       (u32 (actual_length (fst (fst r)) - m25p_cmdsz nor - dummy)),
     snd (fst r), snd r).
Proof.
  unfold m25p80_read, m25p80_proto2nbits. cbv zeta.
  change (0 <? 0) with false. cbv iota.
  destruct (_ =? _); simpl alter; simpl take;
    destruct (spi_sync _ _ _) as [[m f] b]; reflexivity.
Qed.

(** C5. Every bulk read hands the SPI core one message.  It has exactly
    two transfers when the address lanes equal the opcode lanes: the
    opcode, address and dummy bytes go out as one transmit transfer of
    [1 + addr_width + dummy] bytes from the start of the command array,
    and the data follow.  It has exactly three otherwise: the opcode
    byte; the [addr_width + dummy] address and dummy bytes, from byte 1
    of the array on the address lanes; the data.  The data transfer
    receives into the caller's buffer on the data lanes. *)
Theorem m25p80_read_phase_count (nor : spi_nor) (flash : m25p)
    (from nbytes retlen : Z) (buf : list Z) :
  let '(_, code_nbits, addr_nbits, data_nbits) :=
    m25p80_proto2nbits (read_proto nor) in
  let dummy := u32 (u32 (read_dummy nor) * addr_nbits) / 8 in
  let '(_, _, flash', _) := m25p80_read nor flash from nbytes retlen buf in
  exists msg,
    spi flash' = spi flash ++ [msg]
    /\ length (transfers msg)
       = (if addr_nbits =? code_nbits then 2%nat else 3%nat)
    /\ tx_buf <$> transfers msg
       = (if addr_nbits =? code_nbits
          then [command_at 0; NULL]
          else [command_at 0; command_at 1; NULL])
    /\ rx_buf <$> transfers msg
       = (if addr_nbits =? code_nbits
          then [NULL; caller_buf]
          else [NULL; NULL; caller_buf])
    /\ transfers msg
       = (if addr_nbits =? code_nbits
          then [mk_transfer (command_at 0) NULL
                  (u32 (1 + u32 (addr_width nor + dummy))) code_nbits 0;
                mk_transfer NULL caller_buf (u32 nbytes) 0 data_nbits]
          else [mk_transfer (command_at 0) NULL 1 code_nbits 0;
                mk_transfer (command_at 1) NULL
                  (u32 (addr_width nor + dummy)) addr_nbits 0;
                mk_transfer NULL caller_buf (u32 nbytes) 0 data_nbits])
    /\ (0 <= addr_width nor <= 255 ->
        0 <= read_dummy nor ->
        read_dummy nor * addr_nbits < 2 ^ 32 ->
        0 <= nbytes < 2 ^ 32 ->
        let dummy_bytes := read_dummy nor * addr_nbits / 8 in
        len <$> transfers msg
        = (if addr_nbits =? code_nbits
           then [1 + addr_width nor + dummy_bytes; nbytes]
           else [1; addr_width nor + dummy_bytes; nbytes])).
Proof.
  unfold m25p80_proto2nbits. cbv zeta.
  rewrite m25p80_read_eq. cbv zeta.
  eexists. split; [rewrite spi_sync_spi; reflexivity |].
  cbn [transfers].
  split; [destruct (_ =? _); reflexivity |].
  split; [destruct (_ =? _); reflexivity |].
  split; [destruct (_ =? _); reflexivity |].
  split; [reflexivity |].
  intros Haw Hrd Hprod Hlen.
  pose proof (u32_range (SNOR_PROTO_ADDR_FROM_PROTO (read_proto nor))) as Hl.
  set (lanes := u32 (SNOR_PROTO_ADDR_FROM_PROTO (read_proto nor))) in *.
  rewrite (dummy_product_exact (read_dummy nor) lanes) by lia.
  assert (Hd0 : 0 <= read_dummy nor * lanes / 8)
    by (apply Z.div_pos; [nia | lia]).
  assert (Hd1 : read_dummy nor * lanes / 8 < 2 ^ 29).
  { apply Z.div_lt_upper_bound; [lia |].
    change (8 * 2 ^ 29) with (2 ^ 32). exact Hprod. }
  set (d := read_dummy nor * lanes / 8) in *.
  change (2 ^ 29) with 536870912 in Hd1.
  rewrite (u32_id nbytes) by exact Hlen.
  rewrite (u32_id (addr_width nor + d)) by (change (2 ^ 32) with 4294967296; lia).
  rewrite (u32_id (1 + _)) by (change (2 ^ 32) with 4294967296; lia).
  destruct (_ =? _); simpl; rewrite ?Z.add_assoc; reflexivity.
Qed.

Lemma m25p_addr2cmd_in_range nor addr flash :
  (5 <= length (command flash))%nat ->
  overrun (m25p_addr2cmd nor addr flash) = overrun flash.
Proof.
  intros H. unfold m25p_addr2cmd, cmd_set.
  rewrite !cmd_store_in_range; rewrite ?cmd_store_length; simpl; try lia.
  reflexivity.
Qed.

(** X18. For every bulk read whose opcode, address and dummy bytes fit
    the command array, the number of dummy bytes is
    [floor (dummy cycles * address lanes / 8)], each of them is staged as
    0x00 right after the address bytes, the transfer carrying the address
    carries them too, and nothing is stored past the array. *)
Theorem m25p80_read_dummy_zero_filled (nor : spi_nor) (flash : m25p)
    (from nbytes retlen : Z) (buf : list Z) :
  command_sized flash ->
  0 <= addr_width nor ->
  0 <= read_dummy nor ->
  let '(_, code_nbits, addr_nbits, _) := m25p80_proto2nbits (read_proto nor) in
  let dummy_bytes := (read_dummy nor * addr_nbits) / 8 in
  1 + addr_width nor + dummy_bytes <= MAX_CMD_SIZE ->
  let '(_, _, flash', _) := m25p80_read nor flash from nbytes retlen buf in
  exists msg,
    spi flash' = spi flash ++ [msg]
    /\ (forall i, 0 <= i < dummy_bytes ->
          command_bytes msg !! Z.to_nat (1 + addr_width nor + i) = Some 0)
    /\ len <$> transfers msg
       = (if addr_nbits =? code_nbits
          then [1 + addr_width nor + dummy_bytes; u32 nbytes]
          else [1; addr_width nor + dummy_bytes; u32 nbytes])
    /\ overrun flash' = overrun flash.
Proof.
  intros Hsz Haw Hrd. unfold m25p80_proto2nbits. intros Hfit.
  rewrite m25p80_read_eq. cbv zeta.
  pose proof (u32_range (SNOR_PROTO_ADDR_FROM_PROTO (read_proto nor))) as Hl.
  set (lanes := u32 (SNOR_PROTO_ADDR_FROM_PROTO (read_proto nor))) in *.
  assert (Hd0 : 0 <= read_dummy nor * lanes / 8)
    by (apply Z.div_pos; [nia | lia]).
  rewrite (dummy_bytes_exact (read_dummy nor) lanes 16)
    by (unfold MAX_CMD_SIZE in Hfit; lia).
  set (d := read_dummy nor * lanes / 8) in *.
  unfold MAX_CMD_SIZE in Hfit. unfold command_sized, MAX_CMD_SIZE in Hsz.
  eexists. split; [rewrite spi_sync_spi; reflexivity |].
  split; [| split].
  - intros i Hi. cbn [command_bytes].
    rewrite cmd_memset_lookup; [reflexivity | lia | lia |].
    rewrite m25p_addr2cmd_length. unfold cmd_set.
    rewrite cmd_store_length, Hsz. simpl. lia.
  - rewrite (u32_id (addr_width nor + d)) by (change (2 ^ 32) with 4294967296; lia).
    rewrite (u32_id (1 + _)) by (change (2 ^ 32) with 4294967296; lia).
    destruct (_ =? _); simpl; rewrite ?Z.add_assoc; reflexivity.
  - match goal with |- overrun (snd (fst (spi_sync ?f ?b ?xs))) = _ =>
      assert (Hall : Forall (fun x => rx_buf x = NULL \/ rx_buf x = caller_buf) xs)
        by (destruct (_ =? _); repeat constructor; simpl; auto);
      destruct (spi_sync_no_command_rx f b xs Hall) as [_ Hov] end.
    rewrite Hov. unfold cmd_memset.
    rewrite cmd_store_in_range.
    + rewrite m25p_addr2cmd_in_range; unfold cmd_set.
      * apply cmd_store_in_range; rewrite ?Hsz; simpl; lia.
      * rewrite cmd_store_length, Hsz. simpl. lia.
    + lia.
    + rewrite length_replicate, m25p_addr2cmd_length. unfold cmd_set.
      rewrite cmd_store_length, Hsz. lia.
Qed.

Lemma size_t_u32 x : 32 <= BITS_PER_LONG -> size_t BITS_PER_LONG (u32 x) = u32 x.
Proof.
  intros Hb. apply size_t_id. pose proof (u32_range x).
  assert (2 ^ 32 <= 2 ^ BITS_PER_LONG) by (apply Z.pow_le_mono_r; lia). lia.
Qed.

(** C6, as the code has it.  A bulk read at offset 0x001000 of 256 bytes,
    with a 3-byte address, 8 dummy cycles and a protocol whose address
    and data lanes are both [n] (1, 2 or 4), stages opcode, 00 10 00 and
    [n] zero dummy bytes.  With [n] opcode lanes too the message is
    [opcode+address+dummy, 4 + n bytes][data, 256 bytes]; otherwise it is
    [opcode, 1][address+dummy, 3 + n][data, 256].  When the SPI core
    reports an actual length of 260, [*retlen] is [256 - n]. *)
Theorem m25p80_read_scenario (nor : spi_nor) (flash : m25p)
    (retlen : Z) (buf : list Z) :
  command_sized flash ->
  addr_width nor = 3 ->
  read_dummy nor = 8 ->
  32 <= BITS_PER_LONG ->
  (forall seen m, actual_length (spi_bus seen m) = 260) ->
  let '(_, code_nbits, addr_nbits, data_nbits) :=
    m25p80_proto2nbits (read_proto nor) in
  addr_nbits = data_nbits ->
  addr_nbits = 1 \/ addr_nbits = 2 \/ addr_nbits = 4 ->
  let '(ret, retlen', flash', _) :=
    m25p80_read nor flash 0x001000 256 retlen buf in
  exists msg,
    spi flash' = spi flash ++ [msg]
    /\ transfers msg
       = (if addr_nbits =? code_nbits
          then [mk_transfer (command_at 0) NULL (4 + addr_nbits) code_nbits 0;
                mk_transfer NULL caller_buf 256 0 data_nbits]
          else [mk_transfer (command_at 0) NULL 1 code_nbits 0;
                mk_transfer (command_at 1) NULL (3 + addr_nbits) addr_nbits 0;
                mk_transfer NULL caller_buf 256 0 data_nbits])
    /\ take (Z.to_nat (4 + addr_nbits)) (command_bytes msg)
       = [u8 (read_opcode nor); 0; 0x10; 0] ++ replicate (Z.to_nat addr_nbits) 0
    /\ ret = 0
    /\ retlen' = 256 - addr_nbits.
Proof.
  intros Hsz Hw Hd Hbits Hbus. unfold m25p80_proto2nbits.
  intros Hdata Hlanes.
  rewrite m25p80_read_eq. cbv zeta.
  rewrite spi_sync_reply. cbv zeta. cbn [actual_length].
  rewrite Hbus, size_t_u32 by assumption.
  unfold m25p_cmdsz. rewrite Hw, Hd, <- Hdata.
  eexists. split; [rewrite spi_sync_spi; reflexivity |].
  cbn [transfers command_bytes].
  spell_command flash Hsz. unfold cmd_memset, cmd_store. cbn [command].
  erewrite m25p_addr2cmd_bytes_3; [| exact Hw | reflexivity].
  destruct Hlanes as [-> | [-> | ->]];
    (split; [destruct (_ =? _); reflexivity |]);
    (split; [reflexivity |]); split; reflexivity.
Qed.

(** ** Register read *)

Lemma m25p80_read_reg_eq nor flash code val n :
  let code_nbits := u32 (SNOR_PROTO_CODE_FROM_PROTO (reg_proto nor)) in
  let data_nbits := u32 (SNOR_PROTO_DATA_FROM_PROTO (reg_proto nor)) in
  let xfers := [mk_transfer (command_at 0) NULL 1 code_nbits 0;
                mk_transfer NULL (command_at 1) (u32 n) 0 data_nbits] in
  let r := spi_sync (cmd_set 0 code flash) [] xfers in
  let ret := status (fst (fst r)) in
  m25p80_read_reg nor flash code val n
  = if s32 (n + 1) >? MAX_CMD_SIZE then (- EINVAL, flash, val)
    else if ret <? 0 then (ret, snd (fst r), val)
    else (ret,
          snd (memcpy_from_cmd val 1 (size_t BITS_PER_LONG n) (snd (fst r))),
          fst (memcpy_from_cmd val 1 (size_t BITS_PER_LONG n) (snd (fst r)))).
Proof.
  unfold m25p80_read_reg, m25p80_proto2nbits, spi_sync_transfer. cbv zeta.
  destruct (_ >? _); [reflexivity |].
  change (0 <? 0) with false. cbv iota.
  simpl alter. simpl take.
  destruct (spi_sync _ _ _) as [[m f] b]. simpl.
  destruct (_ <? 0); reflexivity.
Qed.

(** C3. [m25p80_read_reg] with length 16 returns [-EINVAL] and leaves the
    driver as it was: no message reaches the SPI core, the command array
    and the caller's buffer are untouched.  With length 15 it goes on:
    one message is handed over, the opcode transfer and a receive
    transfer of 15 bytes, and the status of that call is returned.  For
    a length [n] whose successor is an [int], the call is rejected
    exactly when [n + 1] exceeds [MAX_CMD_SIZE]. *)
Theorem m25p80_read_reg_capacity (nor : spi_nor) (flash : m25p)
    (code : Z) (val : list Z) (n : Z) :
  INT_MIN <= n < INT_MAX ->
  let '(_, code_nbits, _, data_nbits) := m25p80_proto2nbits (reg_proto nor) in
  let proceeds k :=
    let '(ret, flash', _) := m25p80_read_reg nor flash code val k in
    exists msg,
      spi flash' = spi flash ++ [msg]
      /\ transfers msg = [mk_transfer (command_at 0) NULL 1 code_nbits 0;
                          mk_transfer NULL (command_at 1) k 0 data_nbits]
      /\ ret = s32 (status (spi_bus (spi flash) msg)) in
  m25p80_read_reg nor flash code val 16 = (- EINVAL, flash, val)
  /\ proceeds 15
  /\ (MAX_CMD_SIZE < n + 1 ->
      m25p80_read_reg nor flash code val n = (- EINVAL, flash, val))
  /\ (0 <= n -> n + 1 <= MAX_CMD_SIZE -> proceeds n)
  /\ (n + 1 <= MAX_CMD_SIZE ->
      m25p80_read_reg nor flash code val n <> (- EINVAL, flash, val)).
Proof.
  intros Hn. unfold m25p80_proto2nbits. cbv zeta.
  unfold INT_MIN, INT_MAX, MAX_CMD_SIZE in *.
  assert (Hgo : forall k, INT_MIN <= k < INT_MAX -> k + 1 <= 16 ->
            (s32 (k + 1) >? 16) = false).
  { intros k Hk Hle. rewrite s32_id by (unfold INT_MIN, INT_MAX in *; lia).
    rewrite Z.gtb_ltb. apply Z.ltb_ge. lia. }
  assert (Hlog : forall k, (s32 (k + 1) >? 16) = false ->
            exists msg, spi (snd (fst (m25p80_read_reg nor flash code val k)))
                        = spi flash ++ [msg]).
  { intros k Hk. rewrite m25p80_read_reg_eq. cbv zeta.
    unfold MAX_CMD_SIZE. rewrite Hk.
    destruct (_ <? 0); cbn [fst snd memcpy_from_cmd spi];
      rewrite spi_sync_spi; eexists; reflexivity. }
  assert (Hpro : forall k, 0 <= k -> INT_MIN <= k < INT_MAX -> k + 1 <= 16 ->
    let '(ret, flash', _) := m25p80_read_reg nor flash code val k in
    exists msg,
      spi flash' = spi flash ++ [msg]
      /\ transfers msg
         = [mk_transfer (command_at 0) NULL 1
              (u32 (SNOR_PROTO_CODE_FROM_PROTO (reg_proto nor))) 0;
            mk_transfer NULL (command_at 1) k 0
              (u32 (SNOR_PROTO_DATA_FROM_PROTO (reg_proto nor)))]
      /\ ret = s32 (status (spi_bus (spi flash) msg))).
  { intros k Hk0 Hk Hle. rewrite m25p80_read_reg_eq. cbv zeta.
    unfold MAX_CMD_SIZE. rewrite (Hgo k Hk Hle).
    rewrite spi_sync_reply. cbv zeta. cbn [status].
    rewrite (u32_id k) by (change (2 ^ 32) with 4294967296; lia).
    destruct (_ <? 0); cbn [fst snd memcpy_from_cmd spi];
      rewrite spi_sync_spi; eexists; repeat split; reflexivity. }
  split; [reflexivity |].
  split; [apply (Hpro 15); unfold INT_MIN, INT_MAX; lia |].
  split; [| split].
  - intros Hgt. rewrite m25p80_read_reg_eq. cbv zeta.
    rewrite s32_id by (unfold INT_MIN, INT_MAX; lia).
    unfold MAX_CMD_SIZE.
    replace (n + 1 >? 16) with true; [reflexivity |].
    symmetry. rewrite Z.gtb_ltb. apply Z.ltb_lt. lia.
  - intros H0 Hle. apply Hpro; unfold INT_MIN, INT_MAX; lia.
  - intros Hle Heq.
    destruct (Hlog n) as [msg Hmsg].
    { apply Hgo; unfold INT_MIN, INT_MAX; lia. }
    rewrite Heq in Hmsg. cbn [fst snd] in Hmsg.
    apply (f_equal length) in Hmsg. rewrite length_app in Hmsg.
    simpl in Hmsg. lia.
Qed.

(** C10. Whenever [m25p80_read_reg] returns an error, the caller's
    buffer is exactly as it was; the bytes received are copied out of
    the command array only when the status is not negative. *)
Theorem m25p80_read_reg_error_keeps_val (nor : spi_nor) (flash : m25p)
    (code : Z) (val : list Z) (n : Z) :
  let '(ret, flash', val') := m25p80_read_reg nor flash code val n in
  (ret < 0 -> val' = val)
  /\ (0 <= ret ->
      val' = list_inserts 0 (cmd_load 1 (size_t BITS_PER_LONG n) flash') val).
Proof.
  rewrite m25p80_read_reg_eq. cbv zeta.
  destruct (_ >? _).
  - split; [reflexivity |]. unfold EINVAL. lia.
  - destruct (_ <? 0) eqn:Hret.
    + split; [reflexivity |]. apply Z.ltb_lt in Hret. lia.
    + split; [| reflexivity]. apply Z.ltb_ge in Hret. lia.
Qed.

(** ** Register write *)

Lemma m25p80_write_reg_eq nor flash opcode buf n :
  let code_nbits := u32 (SNOR_PROTO_CODE_FROM_PROTO (reg_proto nor)) in
  let data_nbits := u32 (SNOR_PROTO_DATA_FROM_PROTO (reg_proto nor)) in
  m25p80_write_reg nor flash opcode buf n
  = match buf with
    | Some bytes =>
        if s32 (n + 1) >? MAX_CMD_SIZE then (- EINVAL, flash)
        else
          let staged :=
            memcpy_to_cmd 1 bytes (size_t BITS_PER_LONG n)
                          (cmd_set 0 opcode flash) in
          let xfers :=
            if data_nbits =? code_nbits
            then [mk_transfer (command_at 0) NULL (u32 (1 + n)) code_nbits 0]
            else [mk_transfer (command_at 0) NULL 1 code_nbits 0;
                  mk_transfer (command_at 1) NULL (u32 n) data_nbits 0] in
          let r := spi_sync staged [] xfers in
          (status (fst (fst r)), snd (fst r))
    | None =>
        let r := spi_sync (cmd_set 0 opcode flash) []
                   [mk_transfer (command_at 0) NULL 1 code_nbits 0] in
        (status (fst (fst r)), snd (fst r))
    end.
Proof.
  unfold m25p80_write_reg, m25p80_proto2nbits, spi_sync_transfer. cbv zeta.
  destruct buf as [bytes |].
  - change (bool_decide (Some bytes <> None)) with true. cbn [andb].
    destruct (_ >? _); [reflexivity |].
    change (0 <? 0) with false. cbv iota.
    destruct (_ =? _); simpl alter; simpl take;
      destruct (spi_sync _ _ _) as [[m f] b]; reflexivity.
  - change (bool_decide (@None (list Z) <> None)) with false. cbn [andb].
    change (0 <? 0) with false. cbv iota.
    simpl alter. simpl take.
    destruct (spi_sync _ _ _) as [[m f] b]. reflexivity.
Qed.

Lemma spi_sync_tx_only flash buf xfers :
  Forall (fun x => rx_buf x = NULL) xfers ->
  command (snd (fst (spi_sync flash buf xfers))) = command flash
  /\ overrun (snd (fst (spi_sync flash buf xfers))) = overrun flash.
Proof.
  intros Hall. apply spi_sync_no_command_rx.
  eapply Forall_impl; [exact Hall |]. simpl. auto.
Qed.

(** C7. A register write with a payload of [n] bytes that fits stages the
    opcode in byte 0 of the command array and the payload in the bytes
    after it.  When the data lanes equal the opcode lanes the message is
    the single transfer of [1 + n] bytes; otherwise it is the opcode
    transfer followed by a transfer of the [n] payload bytes on the data
    lanes. *)
Theorem m25p80_write_reg_payload (nor : spi_nor) (flash : m25p)
    (opcode : Z) (bytes : list Z) (n : Z) :
  command_sized flash ->
  0 <= n ->
  n + 1 <= MAX_CMD_SIZE ->
  n <= Z.of_nat (length bytes) ->
  32 <= BITS_PER_LONG ->
  let '(_, code_nbits, _, data_nbits) := m25p80_proto2nbits (reg_proto nor) in
  let '(ret, flash') := m25p80_write_reg nor flash opcode (Some bytes) n in
  exists msg,
    spi flash' = spi flash ++ [msg]
    /\ command_bytes msg
       = u8 opcode :: (u8 <$> take (Z.to_nat n) bytes)
                   ++ drop (Z.to_nat (1 + n)) (command flash)
    /\ transfers msg
       = (if data_nbits =? code_nbits
          then [mk_transfer (command_at 0) NULL (1 + n) code_nbits 0]
          else [mk_transfer (command_at 0) NULL 1 code_nbits 0;
                mk_transfer (command_at 1) NULL n data_nbits 0])
    /\ overrun flash' = overrun flash
    /\ ret = s32 (status (spi_bus (spi flash) msg)).
Proof.
  intros Hsz H0 Hfit Hsrc Hbits. unfold m25p80_proto2nbits.
  unfold MAX_CMD_SIZE in Hfit.
  rewrite m25p80_write_reg_eq. cbv zeta.
  rewrite s32_id by (unfold INT_MIN, INT_MAX; lia).
  unfold MAX_CMD_SIZE at 1.
  replace (n + 1 >? 16) with false
    by (symmetry; rewrite Z.gtb_ltb; apply Z.ltb_ge; lia).
  assert (Hpow : 2 ^ 32 <= 2 ^ BITS_PER_LONG) by (apply Z.pow_le_mono_r; lia).
  change (2 ^ 32) with 4294967296 in Hpow.
  rewrite size_t_id by lia.
  rewrite (u32_id n), (u32_id (1 + n)) by (change (2 ^ 32) with 4294967296; lia).
  rewrite spi_sync_reply. cbv zeta. cbn [status fst snd].
  assert (Hlen : length (take (Z.to_nat n) bytes) = Z.to_nat n)
    by (rewrite length_take; lia).
  eexists. split; [rewrite spi_sync_spi; reflexivity |].
  cbn [command_bytes transfers].
  split; [| split; [reflexivity | split; [| reflexivity]]].
  - unfold command_sized, MAX_CMD_SIZE in Hsz.
    destruct flash as [cmd log ov]. cbn [command] in *.
    destruct cmd as [| c0 rest]; [discriminate Hsz |].
    simpl in Hsz.
    unfold memcpy_to_cmd, cmd_set, cmd_store. cbn [command].
    change (Z.to_nat 0) with 0%nat. change (Z.to_nat 1) with 1%nat.
    cbn [list_inserts fmap list_fmap]. cbn [insert list_insert].
    rewrite list_inserts_cons.
    replace (Z.to_nat (1 + n)) with (S (Z.to_nat n)) by lia.
    cbn [drop]. f_equal.
    rewrite <- (take_drop (Z.to_nat n) rest) at 1.
    apply list_inserts_0_r.
    rewrite length_fmap, Hlen, length_take. lia.
  - match goal with |- overrun (snd (fst (spi_sync ?f ?b ?xs))) = _ =>
      assert (Hall : Forall (fun x => rx_buf x = NULL) xs)
        by (destruct (_ =? _); repeat constructor);
      destruct (spi_sync_tx_only f b xs Hall) as [_ Hov] end.
    rewrite Hov. unfold memcpy_to_cmd. cbn [overrun].
    unfold command_sized, MAX_CMD_SIZE in Hsz.
    rewrite cmd_store_in_range.
    + unfold cmd_set. rewrite cmd_store_in_range by (rewrite ?Hsz; simpl; lia).
      rewrite cmd_store_length, Hsz.
      replace (Z.of_nat (length bytes) <? n) with false
        by (symmetry; apply Z.ltb_ge; lia).
      replace (Z.of_nat (Z.to_nat 16) <? 1 + n) with false
        by (symmetry; apply Z.ltb_ge; lia).
      now rewrite !orb_false_r.
    + lia.
    + unfold cmd_set. rewrite cmd_store_length, Hsz, Hlen. lia.
Qed.

(** ** Bulk write *)

Lemma m25p80_write_eq nor flash to n retlen buf :
  let code_nbits := u32 (SNOR_PROTO_CODE_FROM_PROTO (write_proto nor)) in
  let addr_nbits := u32 (SNOR_PROTO_ADDR_FROM_PROTO (write_proto nor)) in
  let data_nbits := u32 (SNOR_PROTO_DATA_FROM_PROTO (write_proto nor)) in
  let cmd_sz :=
    if (program_opcode nor =? SPINOR_OP_AAI_WP) && sst_write_second nor
    then 1 else m25p_cmdsz nor in
  let opcode_set := cmd_set 0 (program_opcode nor) flash in
  let staged :=
    if cmd_sz >? 1 then m25p_addr2cmd nor to opcode_set else opcode_set in
  let data := mk_transfer caller_buf NULL (u32 n) data_nbits 0 in
  let xfers :=
    if cmd_sz >? 1 then
      if addr_nbits =? code_nbits
      then [mk_transfer (command_at 0) NULL (u32 (1 + addr_width nor))
              code_nbits 0; data]
      else [mk_transfer (command_at 0) NULL 1 code_nbits 0;
            mk_transfer (command_at 1) NULL (u32 (addr_width nor)) addr_nbits 0;
            data]
    else [mk_transfer (command_at 0) NULL 1 code_nbits 0; data] in
  let r := spi_sync staged buf xfers in
  m25p80_write nor flash to n retlen buf
  = (size_t BITS_PER_LONG (retlen + u32 (actual_length (fst (fst r)) - cmd_sz)),
     snd (fst r)).
Proof.
  unfold m25p80_write, m25p80_proto2nbits. cbv zeta.
  change (0 <? 0) with false. cbv iota.
  destruct (_ >? 1); [destruct (_ =? _) |]; simpl alter; simpl take;
    destruct (spi_sync _ _ _) as [[m f] b]; reflexivity.
Qed.

(** C8. Every bulk write hands one message to the SPI core and adds to
    the caller's [*retlen] the actual length it reports minus the header
    size: [1 + addr_width], or 1 when the program opcode is
    [SPINOR_OP_AAI_WP] and [sst_write_second] is set, in which case the
    message carries the opcode byte and the data, with no address. *)
Theorem m25p80_write_retlen (nor : spi_nor) (flash : m25p)
    (to n retlen : Z) (buf : list Z) :
  0 <= addr_width nor <= 255 ->
  let '(_, code_nbits, _, data_nbits) := m25p80_proto2nbits (write_proto nor) in
  let header :=
    if (program_opcode nor =? SPINOR_OP_AAI_WP) && sst_write_second nor
    then 1 else 1 + addr_width nor in
  let '(retlen', flash') := m25p80_write nor flash to n retlen buf in
  exists msg,
    spi flash' = spi flash ++ [msg]
    /\ (let actual := u32 (actual_length (spi_bus (spi flash) msg)) in
        retlen' = size_t BITS_PER_LONG (retlen + u32 (actual - header))
        /\ (header <= actual -> 0 <= retlen ->
            retlen + (actual - header) < 2 ^ BITS_PER_LONG ->
            retlen' = retlen + (actual - header)))
    /\ ((program_opcode nor =? SPINOR_OP_AAI_WP) && sst_write_second nor = true ->
        transfers msg
        = [mk_transfer (command_at 0) NULL 1 code_nbits 0;
           mk_transfer caller_buf NULL (u32 n) data_nbits 0]).
Proof.
  intros Haw. unfold m25p80_proto2nbits. cbv zeta.
  rewrite m25p80_write_eq. cbv zeta.
  unfold m25p_cmdsz. rewrite s32_id by (unfold INT_MIN, INT_MAX; lia).
  rewrite spi_sync_reply. cbv zeta. cbn [actual_length].
  rewrite spi_sync_spi.
  destruct (_ && _); [| destruct (_ >? 1)];
    (eexists; split; [reflexivity |]; cbn [transfers spi];
     split; [split; [reflexivity |] | intros Haai; try discriminate Haai; reflexivity]).
  all: intros Hle Hr Hlt.
  all: match goal with
       | H : _ <= u32 ?x |- size_t _ (_ + u32 (?b - _)) = _ =>
           change b with (u32 x); pose proof (u32_range x) as Hu;
           set (actual := u32 x) in *
       end.
  all: rewrite (u32_id (actual - _)) by lia.
  all: apply size_t_id; lia.
Qed.

(** ** Erase *)

Lemma m25p80_erase_eq nor flash offset :
  let staged := m25p_addr2cmd nor offset (cmd_set 0 (erase_opcode nor) flash) in
  let r := spi_sync staged []
             [mk_transfer (command_at 0) NULL (u32 (m25p_cmdsz nor)) 0 0] in
  m25p80_erase nor flash offset = (0, snd (fst r)).
Proof.
  unfold m25p80_erase, spi_write, spi_sync_transfer. cbv zeta.
  simpl take. change (set_len ?a (set_tx ?b ?c xfer_zero))
    with (mk_transfer b NULL a c 0).
  destruct (spi_sync _ _ _) as [[m f] b]. reflexivity.
Qed.

(** C9. Every erase hands the SPI core one message made of a single
    transmit transfer: the opcode byte and the address bytes together,
    [1 + addr_width] bytes from the start of the command array, and no
    data transfer.  With a 4-byte address that is one transfer of 5
    bytes, the opcode followed by the offset, most significant byte
    first. *)
Theorem m25p80_erase_header_only (nor : spi_nor) (flash : m25p) (offset : Z) :
  command_sized flash ->
  0 <= addr_width nor <= 255 ->
  let '(ret, flash') := m25p80_erase nor flash offset in
  exists msg,
    spi flash' = spi flash ++ [msg]
    /\ transfers msg = [mk_transfer (command_at 0) NULL (1 + addr_width nor) 0 0]
    /\ command_bytes msg !! 0%nat = Some (u8 (erase_opcode nor))
    /\ (addr_width nor = 3 \/ addr_width nor = 4 ->
        be_decode (take (Z.to_nat (addr_width nor)) (drop 1 (command_bytes msg)))
        = offset mod 2 ^ (addr_width nor * 8))
    /\ (addr_width nor = 4 -> len <$> transfers msg = [5])
    /\ ret = 0.
Proof.
  intros Hsz Haw.
  rewrite m25p80_erase_eq. cbv zeta.
  unfold m25p_cmdsz. rewrite s32_id by (unfold INT_MIN, INT_MAX; lia).
  rewrite u32_id by (change (2 ^ 32) with 4294967296; lia).
  eexists. split; [rewrite spi_sync_spi; reflexivity |].
  cbn [transfers command_bytes].
  assert (Hsz' : command_sized (cmd_set 0 (erase_opcode nor) flash)).
  { unfold command_sized, cmd_set in *. now rewrite cmd_store_length. }
  split; [reflexivity |]. split; [| split; [| split]].
  - rewrite m25p_addr2cmd_command.
    rewrite !list_lookup_insert_ne by lia.
    rewrite cmd_set_command. apply list_lookup_insert_eq.
    unfold command_sized, MAX_CMD_SIZE in Hsz. rewrite Hsz. simpl. lia.
  - intros Hw.
    apply (m25p_addr2cmd_decode nor offset _ Hsz' Hw).
  - intros ->. reflexivity.
  - reflexivity.
Qed.

End Properties.

(** ** Status reporting *)

Lemma spi_sync_with_status {pf : Platform} f flash buf xfers :
  let r := spi_sync flash buf xfers in
  let r' := spi_sync (pf := with_status f pf) flash buf xfers in
  actual_length (fst (fst r')) = actual_length (fst (fst r))
  /\ snd (fst r') = snd (fst r)
  /\ snd r' = snd r.
Proof.
  unfold spi_sync. cbn [spi_bus with_status status actual_length rx_bytes].
  destruct (deliver _ _ _ _) as [fl b]. repeat split.
Qed.

(** C4, as the code has it.  For a register read and for a register
    write that pass the capacity check, exactly one message is handed to
    the SPI core and the status it reports is what the caller gets back,
    unchanged, whether it is an error or not.  A bulk write, of any
    length, has no status to give back: what its caller sees is the
    same whatever status the SPI core reports. *)
Theorem register_ops_return_bus_status {pf : Platform}
    (nor : spi_nor) (flash : m25p)
    (code : Z) (val : list Z) (buf : option (list Z)) (n : Z)
    (to nbytes retlen : Z) (data : list Z) (f : Z -> Z) :
  ((forall seen m, INT_MIN <= status (spi_bus seen m) <= INT_MAX) ->
   s32 (n + 1) <= MAX_CMD_SIZE ->
   (let '(ret, flash', _) := m25p80_read_reg nor flash code val n in
    exists msg,
      spi flash' = spi flash ++ [msg]
      /\ ret = status (spi_bus (spi flash) msg))
   /\ (let '(ret, flash') := m25p80_write_reg nor flash code buf n in
       exists msg,
         spi flash' = spi flash ++ [msg]
         /\ ret = status (spi_bus (spi flash) msg)))
  /\ m25p80_write (pf := with_status f pf) nor flash to nbytes retlen data
     = m25p80_write nor flash to nbytes retlen data.
Proof.
  split.
  - intros Hint Hfit.
    assert (Hgo : (s32 (n + 1) >? MAX_CMD_SIZE) = false)
      by (rewrite Z.gtb_ltb; apply Z.ltb_ge; lia).
    split.
    + rewrite m25p80_read_reg_eq. cbv zeta. rewrite Hgo.
      rewrite spi_sync_reply. cbv zeta. cbn [status].
      rewrite s32_id by apply Hint.
      destruct (_ <? 0); cbn [fst snd memcpy_from_cmd spi];
        rewrite spi_sync_spi; eexists; split; reflexivity.
    + rewrite m25p80_write_reg_eq. cbv zeta. rewrite Hgo.
      destruct buf as [bytes |]; rewrite spi_sync_reply; cbv zeta;
        cbn [status fst snd]; rewrite s32_id by apply Hint;
        rewrite spi_sync_spi; eexists; split; reflexivity.
  - rewrite (m25p80_write_eq (pf := with_status f pf)), (m25p80_write_eq (pf := pf)).
    cbv zeta.
    change (@m25p_addr2cmd (with_status f pf)) with (@m25p_addr2cmd pf).
    cbn [SNOR_PROTO_CODE_FROM_PROTO SNOR_PROTO_ADDR_FROM_PROTO
         SNOR_PROTO_DATA_FROM_PROTO BITS_PER_LONG with_status].
    match goal with |- context [spi_sync (pf := with_status f pf) ?fl ?b ?xs] =>
      destruct (spi_sync_with_status f fl b xs) as (Ha & Hf & _) end.
    rewrite Ha, Hf. reflexivity.
Qed.

(** ** Further properties of the driver *)

Section Further.

Context {pf : Platform}.

(** X1. [m25p_addr2cmd] stores bytes 1 to 4 of the command array and
    nothing else: the opcode in byte 0 and every byte from 5 on are
    kept, the array keeps its length, no message is sent and nothing is
    stored past the array, whatever the address width. *)
Theorem m25p_addr2cmd_frame (nor : spi_nor) (addr : Z) (flash : m25p) :
  (5 <= length (command flash))%nat ->
  (forall i, (i = 0 \/ 5 <= i)%nat ->
     command (m25p_addr2cmd nor addr flash) !! i = command flash !! i)
  /\ length (command (m25p_addr2cmd nor addr flash)) = length (command flash)
  /\ spi (m25p_addr2cmd nor addr flash) = spi flash
  /\ overrun (m25p_addr2cmd nor addr flash) = overrun flash.
Proof.
  intros Hlen. split; [| split; [| split]].
  - intros i Hi. rewrite m25p_addr2cmd_command.
    rewrite !list_lookup_insert_ne by lia. reflexivity.
  - apply m25p_addr2cmd_length.
  - reflexivity.
  - apply m25p_addr2cmd_in_range. exact Hlen.
Qed.

Lemma m25p_addr2cmd_wraps nor addr k flash :
  m25p_addr2cmd nor (addr + k * 2 ^ 32) flash = m25p_addr2cmd nor addr flash.
Proof.
  unfold m25p_addr2cmd.
  replace (u32 (addr + k * 2 ^ 32)) with (u32 addr); [reflexivity |].
  unfold u32. now rewrite Z.mod_add by lia.
Qed.

(** X2. The offset of an erase, a bulk write or a bulk read is cut to
    32 bits before it is encoded: two offsets that differ by a multiple
    of 4 GiB give the same messages, the same results and the same
    driver state. *)
Theorem bulk_ops_offset_wraps (nor : spi_nor) (flash : m25p)
    (offset k n retlen : Z) (buf : list Z) :
  m25p80_erase nor flash (offset + k * 2 ^ 32) = m25p80_erase nor flash offset
  /\ m25p80_write nor flash (offset + k * 2 ^ 32) n retlen buf
     = m25p80_write nor flash offset n retlen buf
  /\ m25p80_read nor flash (offset + k * 2 ^ 32) n retlen buf
     = m25p80_read nor flash offset n retlen buf.
Proof.
  split; [| split].
  - unfold m25p80_erase. now rewrite m25p_addr2cmd_wraps.
  - unfold m25p80_write. now rewrite m25p_addr2cmd_wraps.
  - unfold m25p80_read. now rewrite m25p_addr2cmd_wraps.
Qed.

(** X3. A register write without payload is never rejected, whatever
    length is passed with it: it stores the opcode in byte 0, leaves the
    other bytes alone, and sends the single one-byte opcode transfer. *)
Theorem m25p80_write_reg_opcode_only (nor : spi_nor) (flash : m25p)
    (opcode n : Z) :
  let '(_, code_nbits, _, _) := m25p80_proto2nbits (reg_proto nor) in
  let '(ret, flash') := m25p80_write_reg nor flash opcode None n in
  exists msg,
    spi flash' = spi flash ++ [msg]
    /\ transfers msg = [mk_transfer (command_at 0) NULL 1 code_nbits 0]
    /\ command_bytes msg = <[0%nat := u8 opcode]> (command flash)
    /\ command flash' = <[0%nat := u8 opcode]> (command flash)
    /\ ret = s32 (status (spi_bus (spi flash) msg)).
Proof.
  unfold m25p80_proto2nbits.
  rewrite m25p80_write_reg_eq. cbv zeta.
  rewrite spi_sync_reply. cbv zeta. cbn [status fst snd].
  eexists. split; [rewrite spi_sync_spi; reflexivity |].
  cbn [transfers command_bytes].
  split; [reflexivity |]. split; [reflexivity |]. split; [| reflexivity].
  match goal with |- command (snd (fst (spi_sync ?f ?b ?xs))) = _ =>
    destruct (spi_sync_tx_only f b xs) as [Hc _] end.
  { repeat constructor. }
  rewrite Hc. reflexivity.
Qed.

(** X4. A register write with a payload of [n] bytes, [n + 1] an [int],
    is rejected exactly when [n + 1] exceeds [MAX_CMD_SIZE]; a rejected
    call returns [-EINVAL] and leaves the driver as it was, with no
    message sent. *)
Theorem m25p80_write_reg_capacity (nor : spi_nor) (flash : m25p)
    (opcode : Z) (bytes : list Z) (n : Z) :
  INT_MIN <= n < INT_MAX ->
  (MAX_CMD_SIZE < n + 1 ->
   m25p80_write_reg nor flash opcode (Some bytes) n = (- EINVAL, flash))
  /\ (n + 1 <= MAX_CMD_SIZE ->
      exists msg,
        spi (m25p80_write_reg nor flash opcode (Some bytes) n).2
        = spi flash ++ [msg]).
Proof.
  intros Hn. unfold INT_MIN, INT_MAX, MAX_CMD_SIZE in *.
  rewrite m25p80_write_reg_eq. cbv zeta.
  rewrite s32_id by (unfold INT_MIN, INT_MAX; lia).
  unfold MAX_CMD_SIZE. split; intros Hcmp.
  - replace (n + 1 >? 16) with true; [reflexivity |].
    symmetry. rewrite Z.gtb_ltb. apply Z.ltb_lt. lia.
  - replace (n + 1 >? 16) with false
      by (symmetry; rewrite Z.gtb_ltb; apply Z.ltb_ge; lia).
    cbn [snd]. rewrite spi_sync_spi. eexists. reflexivity.
Qed.

(** What a store of [k] bytes at offset 1 leaves in a non-empty array
    that can hold them. *)
Lemma inserts_after_head (c0 : Z) (rest k : list Z) :
  (length k <= length rest)%nat ->
  list_inserts 1 k (c0 :: rest) = c0 :: k ++ drop (length k) rest.
Proof.
  intros Hk. rewrite list_inserts_cons. f_equal.
  rewrite <- (take_drop (length k) rest) at 1.
  apply list_inserts_0_r. rewrite length_take. lia.
Qed.

Lemma inserts_at_0 (k l : list Z) :
  (length k <= length l)%nat ->
  list_inserts 0 k l = k ++ drop (length k) l.
Proof.
  intros Hk. rewrite <- (take_drop (length k) l) at 1.
  apply list_inserts_0_r. rewrite length_take. lia.
Qed.

(** X5. A register read of [n] bytes that passes the capacity check and
    succeeds gives the caller the first [n] bytes the SPI core received:
    they replace the first [n] bytes of the caller's buffer, the rest of
    which is kept; they also stay in bytes 1 to [n] of the command
    array, after the opcode; nothing is stored past either array. *)
Theorem m25p80_read_reg_returns_received (nor : spi_nor) (flash : m25p)
    (code : Z) (val : list Z) (n : Z) :
  command_sized flash ->
  0 <= n ->
  n + 1 <= MAX_CMD_SIZE ->
  n <= Z.of_nat (length val) ->
  32 <= BITS_PER_LONG ->
  let '(_, code_nbits, _, data_nbits) := m25p80_proto2nbits (reg_proto nor) in
  let msg :=
    mk_message [mk_transfer (command_at 0) NULL 1 code_nbits 0;
                mk_transfer NULL (command_at 1) n 0 data_nbits]
               (<[0%nat := u8 code]> (command flash)) [] in
  let reply := spi_bus (spi flash) msg in
  0 <= s32 (status reply) ->
  n <= Z.of_nat (length (rx_bytes reply)) ->
  let received := u8 <$> take (Z.to_nat n) (rx_bytes reply) in
  let '(ret, flash', val') := m25p80_read_reg nor flash code val n in
  ret = s32 (status reply)
  /\ val' = received ++ drop (Z.to_nat n) val
  /\ command flash'
     = u8 code :: received ++ drop (Z.to_nat (1 + n)) (command flash)
  /\ spi flash' = spi flash ++ [msg]
  /\ overrun flash' = overrun flash.
Proof.
  intros Hsz H0 Hfit Hval Hbits. unfold m25p80_proto2nbits. cbv zeta.
  intros Hok Hrx.
  unfold MAX_CMD_SIZE in Hfit.
  rewrite m25p80_read_reg_eq. cbv zeta.
  rewrite s32_id by (unfold INT_MIN, INT_MAX; lia).
  unfold MAX_CMD_SIZE at 1.
  replace (n + 1 >? 16) with false
    by (symmetry; rewrite Z.gtb_ltb; apply Z.ltb_ge; lia).
  assert (Hpow : 2 ^ 32 <= 2 ^ BITS_PER_LONG) by (apply Z.pow_le_mono_r; lia).
  change (2 ^ 32) with 4294967296 in Hpow.
  rewrite size_t_id by lia.
  rewrite (u32_id n) by (change (2 ^ 32) with 4294967296; lia).
  unfold command_sized, MAX_CMD_SIZE in Hsz.
  destruct flash as [cmd log ov]. cbn [command spi overrun] in *.
  destruct cmd as [| c0 rest]; [discriminate Hsz |]. simpl in Hsz.
  change (<[0%nat := u8 code]> (c0 :: rest)) with (u8 code :: rest) in Hok, Hrx |- *.
  unfold spi_sync, cmd_set. cbn [cmd_store command spi overrun].
  change (Z.to_nat 0) with 0%nat.
  cbn [list_inserts fmap list_fmap insert list_insert].
  set (msg := mk_message _ (u8 code :: rest) []) in *.
  set (reply := spi_bus log msg) in *.
  cbn [deliver rx_buf len]. cbn [fst snd status].
  replace (s32 (status reply) <? 0) with false
    by (symmetry; apply Z.ltb_ge; lia).
  set (received := u8 <$> take (Z.to_nat n) (rx_bytes reply)).
  assert (Hrec : length received = Z.to_nat n).
  { unfold received. rewrite length_fmap, length_take. lia. }
  unfold memcpy_from_cmd, cmd_load, cmd_store.
  cbn [fst snd command spi overrun].
  change (Z.to_nat 1) with 1%nat.
  fold received.
  rewrite (inserts_after_head (u8 code) rest received) by lia.
  cbn [drop]. rewrite Hrec.
  rewrite drop_0, take_app_length' by (symmetry; exact Hrec).
  replace (Z.to_nat (1 + n)) with (S (Z.to_nat n)) by lia. cbn [drop].
  split; [reflexivity |]. split.
  { rewrite inserts_at_0 by lia. now rewrite Hrec. }
  split; [reflexivity |]. split; [reflexivity |].
  assert (Htk : length (take (Z.to_nat n) (rx_bytes reply)) = Z.to_nat n)
    by (rewrite length_take; lia).
  cbn [length]. rewrite length_app, length_drop, Hrec, Htk.
  repeat match goal with |- context [?a <? ?b] =>
    replace (a <? b) with false by (symmetry; apply Z.ltb_ge; lia)
  end.
  now rewrite !orb_false_r.
Qed.

(** A store past the first [n] bytes leaves them alone. *)
Lemma take_inserts_ge (l k : list Z) (n i : nat) :
  (n <= i)%nat -> take n (list_inserts i k l) = take n l.
Proof.
  intros Hni. apply list_eq. intros j.
  rewrite !lookup_take. case_decide; [| reflexivity].
  apply list_lookup_inserts_lt. lia.
Qed.

Lemma deliver_length xs : forall data flash buf,
  length (command (fst (deliver xs data flash buf))) = length (command flash).
Proof.
  induction xs as [| x xs IH]; intros data flash buf; simpl; [reflexivity |].
  destruct (rx_buf x); rewrite IH; [reflexivity | apply cmd_store_length | reflexivity].
Qed.

Lemma spi_sync_length flash buf xfers :
  length (command (snd (fst (spi_sync flash buf xfers))))
  = length (command flash).
Proof.
  unfold spi_sync.
  pose proof (deliver_length xfers
    (rx_bytes (spi_bus (spi flash) (mk_message xfers (command flash) buf)))
    (mk_m25p (command flash)
             (spi flash ++ [mk_message xfers (command flash) buf])
             (overrun flash)) buf) as H.
  destruct (deliver _ _ _ _) as [f b]. exact H.
Qed.

Lemma cmd_set_sized i v flash :
  command_sized flash -> command_sized (cmd_set i v flash).
Proof. unfold command_sized, cmd_set. now rewrite cmd_store_length. Qed.

Lemma m25p_addr2cmd_sized nor addr flash :
  command_sized flash -> command_sized (m25p_addr2cmd nor addr flash).
Proof. unfold command_sized. now rewrite m25p_addr2cmd_length. Qed.

(** X6. A bulk write with a 3- or 4-byte address that is not the second
    half of an AAI program stages the program opcode and the offset,
    most significant byte first, and sends them merged with the opcode
    when the address lanes equal the opcode lanes, as a transfer of
    their own otherwise; the last transfer transmits the caller's buffer
    on the data lanes.  The command array is left as staged and nothing
    is stored past it. *)
Theorem m25p80_write_transaction (nor : spi_nor) (flash : m25p)
    (to n retlen : Z) (buf : list Z) :
  command_sized flash ->
  addr_width nor = 3 \/ addr_width nor = 4 ->
  (program_opcode nor =? SPINOR_OP_AAI_WP) && sst_write_second nor = false ->
  let '(_, code_nbits, addr_nbits, data_nbits) :=
    m25p80_proto2nbits (write_proto nor) in
  let '(_, flash') := m25p80_write nor flash to n retlen buf in
  exists msg,
    spi flash' = spi flash ++ [msg]
    /\ transfers msg
       = (if addr_nbits =? code_nbits
          then [mk_transfer (command_at 0) NULL (1 + addr_width nor) code_nbits 0;
                mk_transfer caller_buf NULL (u32 n) data_nbits 0]
          else [mk_transfer (command_at 0) NULL 1 code_nbits 0;
                mk_transfer (command_at 1) NULL (addr_width nor) addr_nbits 0;
                mk_transfer caller_buf NULL (u32 n) data_nbits 0])
    /\ command_bytes msg !! 0%nat = Some (u8 (program_opcode nor))
    /\ be_decode (take (Z.to_nat (addr_width nor)) (drop 1 (command_bytes msg)))
       = to mod 2 ^ (addr_width nor * 8)
    /\ caller_bytes msg = buf
    /\ command flash' = command_bytes msg
    /\ overrun flash' = overrun flash.
Proof.
  intros Hsz Hw Haai. unfold m25p80_proto2nbits.
  rewrite m25p80_write_eq. cbv zeta. rewrite Haai.
  assert (Hgt : (m25p_cmdsz nor >? 1) = true)
    by (unfold m25p_cmdsz; destruct Hw as [-> | ->]; reflexivity).
  rewrite Hgt.
  assert (Hu1 : u32 (1 + addr_width nor) = 1 + addr_width nor)
    by (destruct Hw as [-> | ->]; reflexivity).
  assert (Hu : u32 (addr_width nor) = addr_width nor)
    by (destruct Hw as [-> | ->]; reflexivity).
  rewrite Hu1, Hu.
  pose proof (cmd_set_sized 0 (program_opcode nor) flash Hsz) as Hsz0.
  eexists. split; [rewrite spi_sync_spi; reflexivity |].
  cbn [transfers command_bytes caller_bytes].
  split; [reflexivity |]. split; [| split; [| split; [reflexivity |]]].
  - rewrite m25p_addr2cmd_command.
    rewrite !list_lookup_insert_ne by lia.
    rewrite cmd_set_command. apply list_lookup_insert_eq.
    unfold command_sized, MAX_CMD_SIZE in Hsz. rewrite Hsz. simpl. lia.
  - apply (m25p_addr2cmd_decode nor to _ Hsz0 Hw).
  - match goal with |- command (snd (fst (spi_sync ?f ?b ?xs))) = _ /\ _ =>
      assert (Hall : Forall (fun x => rx_buf x = NULL) xs)
        by (destruct (u32 _ =? u32 _); repeat constructor);
      destruct (spi_sync_tx_only f b xs Hall) as [Hc Hov] end.
    rewrite Hc, Hov. split; [reflexivity |].
    rewrite m25p_addr2cmd_in_range.
    + unfold cmd_set. apply cmd_store_in_range; [lia |].
      unfold command_sized, MAX_CMD_SIZE in Hsz. rewrite Hsz. simpl. lia.
    + unfold command_sized, MAX_CMD_SIZE in Hsz0. rewrite Hsz0. simpl. lia.
Qed.

(** X7. Every bulk read with a 3- or 4-byte address stages the read
    opcode in byte 0 and the offset in the bytes after it, most
    significant first, whatever the dummy count: clearing the dummy
    bytes never touches the opcode or the address. *)
Theorem m25p80_read_header (nor : spi_nor) (flash : m25p)
    (from n retlen : Z) (buf : list Z) :
  command_sized flash ->
  addr_width nor = 3 \/ addr_width nor = 4 ->
  let '(_, _, flash', _) := m25p80_read nor flash from n retlen buf in
  exists msg,
    spi flash' = spi flash ++ [msg]
    /\ command_bytes msg !! 0%nat = Some (u8 (read_opcode nor))
    /\ be_decode (take (Z.to_nat (addr_width nor)) (drop 1 (command_bytes msg)))
       = from mod 2 ^ (addr_width nor * 8)
    /\ caller_bytes msg = buf.
Proof.
  intros Hsz Hw. rewrite m25p80_read_eq. cbv zeta.
  pose proof (cmd_set_sized 0 (read_opcode nor) flash Hsz) as Hsz0.
  eexists. split; [rewrite spi_sync_spi; reflexivity |].
  cbn [command_bytes caller_bytes].
  unfold cmd_memset, cmd_store. cbn [command].
  assert (Hpos : (0 < Z.to_nat (1 + addr_width nor))%nat)
    by (destruct Hw as [-> | ->]; simpl; lia).
  split; [| split; [| reflexivity]].
  - rewrite list_lookup_inserts_lt by exact Hpos.
    rewrite m25p_addr2cmd_command.
    rewrite !list_lookup_insert_ne by lia.
    rewrite cmd_set_command. apply list_lookup_insert_eq.
    unfold command_sized, MAX_CMD_SIZE in Hsz. rewrite Hsz. simpl. lia.
  - rewrite <- (m25p_addr2cmd_decode nor from _ Hsz0 Hw). unfold cmd_load.
    change (Z.to_nat 1) with 1%nat. f_equal.
    rewrite !take_drop_commute.
    f_equal. apply take_inserts_ge.
    destruct Hw as [-> | ->]; simpl; lia.
Qed.

(** X8. A bulk read overwrites [*retlen]: the value it had before the
    call changes nothing.  When the product of dummy cycles and address
    lanes fits 32 bits and the SPI core reports at least the header and
    dummy bytes, the new value is the actual length minus
    [1 + addr_width] and minus the dummy bytes. *)
Theorem m25p80_read_retlen (nor : spi_nor) (flash : m25p)
    (from n retlen : Z) (buf : list Z) :
  0 <= addr_width nor <= 255 ->
  0 <= read_dummy nor ->
  32 <= BITS_PER_LONG ->
  let '(_, _, addr_nbits, _) := m25p80_proto2nbits (read_proto nor) in
  read_dummy nor * addr_nbits < 2 ^ 32 ->
  let dummy_bytes := read_dummy nor * addr_nbits / 8 in
  (forall before, m25p80_read nor flash from n before buf
                  = m25p80_read nor flash from n retlen buf)
  /\ (let '(_, retlen', flash', _) := m25p80_read nor flash from n retlen buf in
      exists msg,
        spi flash' = spi flash ++ [msg]
        /\ (let actual := u32 (actual_length (spi_bus (spi flash) msg)) in
            1 + addr_width nor + dummy_bytes <= actual ->
            retlen' = actual - (1 + addr_width nor) - dummy_bytes)).
Proof.
  intros Haw Hrd Hbits. unfold m25p80_proto2nbits. cbv zeta. intros Hprod.
  split.
  - intros before. rewrite !m25p80_read_eq. reflexivity.
  - rewrite m25p80_read_eq. cbv zeta.
    pose proof (u32_range (SNOR_PROTO_ADDR_FROM_PROTO (read_proto nor))) as Hl.
    set (lanes := u32 (SNOR_PROTO_ADDR_FROM_PROTO (read_proto nor))) in *.
    rewrite (dummy_product_exact (read_dummy nor) lanes) by lia.
    assert (Hd0 : 0 <= read_dummy nor * lanes / 8)
      by (apply Z.div_pos; [nia | lia]).
    set (d := read_dummy nor * lanes / 8) in *.
    rewrite spi_sync_reply. cbv zeta. cbn [actual_length].
    rewrite size_t_u32 by assumption.
    unfold m25p_cmdsz. rewrite s32_id by (unfold INT_MIN, INT_MAX; lia).
    eexists. split; [rewrite spi_sync_spi; reflexivity |].
    cbn [spi]. intros Hact.
    match goal with H : _ <= u32 ?x |- u32 (u32 ?y - _ - _) = _ =>
      change y with x; pose proof (u32_range x) as Hu;
      set (actual := u32 x) in *
    end.
    apply u32_id. lia.
Qed.

(** X9. The bytes a bulk read receives go to the caller's buffer and
    nowhere else: the first [n] of them replace the first [n] bytes of
    the buffer, and the command array stays as it was staged. *)
Theorem m25p80_read_fills_caller_buffer (nor : spi_nor) (flash : m25p)
    (from n retlen : Z) (buf : list Z) :
  0 <= n < 2 ^ 32 ->
  n <= Z.of_nat (length buf) ->
  let '(_, _, flash', buf') := m25p80_read nor flash from n retlen buf in
  exists msg,
    spi flash' = spi flash ++ [msg]
    /\ command flash' = command_bytes msg
    /\ (let received := rx_bytes (spi_bus (spi flash) msg) in
        buf' = list_inserts 0 (u8 <$> take (Z.to_nat n) received) buf
        /\ (n <= Z.of_nat (length received) ->
            buf' = (u8 <$> take (Z.to_nat n) received) ++ drop (Z.to_nat n) buf)).
Proof.
  intros Hn Hbuf. rewrite m25p80_read_eq. cbv zeta.
  rewrite (u32_id n) by exact Hn.
  eexists. split; [rewrite spi_sync_spi; reflexivity |].
  cbn [command_bytes spi].
  split.
  { match goal with |- command (snd (fst (spi_sync ?f ?b ?xs))) = _ =>
      assert (Hall : Forall (fun x => rx_buf x = NULL \/ rx_buf x = caller_buf) xs)
        by (destruct (u32 _ =? u32 _); repeat constructor; simpl; auto);
      destruct (spi_sync_no_command_rx f b xs Hall) as [Hc _] end.
    exact Hc. }
  unfold spi_sync.
  change (spi (cmd_memset _ _ _
                 (m25p_addr2cmd nor from (cmd_set 0 (read_opcode nor) flash))))
    with (spi flash).
  match goal with |- context [rx_bytes ?r] => set (received := rx_bytes r) end.
  destruct (u32 _ =? u32 _); cbn [deliver rx_buf len fst snd];
    (split; [reflexivity |]); intros Hrx;
    (rewrite inserts_at_0 by (rewrite length_fmap, length_take; lia));
    rewrite length_fmap, length_take;
    replace (Nat.min (Z.to_nat n) (length received)) with (Z.to_nat n) by lia;
    reflexivity.
Qed.

(** X11. An erase and a bulk write only write bytes 0 to 4 of the
    command array: every byte from 5 on is left as it was and nothing
    is stored past the array, whatever the address width, the offset,
    the length and the answer of the SPI core. *)
Theorem erase_write_stay_in_bounds (nor : spi_nor) (flash : m25p)
    (offset n retlen : Z) (buf : list Z) :
  command_sized flash ->
  let erased := (m25p80_erase nor flash offset).2 in
  let written := (m25p80_write nor flash offset n retlen buf).2 in
  overrun erased = overrun flash
  /\ overrun written = overrun flash
  /\ (forall i, (5 <= i)%nat ->
        command erased !! i = command flash !! i
        /\ command written !! i = command flash !! i)
  /\ length (command erased) = length (command flash)
  /\ length (command written) = length (command flash).
Proof.
  intros Hsz. cbv zeta.
  assert (Hset : forall v, overrun (cmd_set 0 v flash) = overrun flash).
  { intros v. unfold cmd_set. apply cmd_store_in_range; [lia |].
    unfold command_sized, MAX_CMD_SIZE in Hsz. rewrite Hsz. simpl. lia. }
  assert (Hadr : forall v a,
            overrun (m25p_addr2cmd nor a (cmd_set 0 v flash)) = overrun flash).
  { intros v a. rewrite m25p_addr2cmd_in_range; [apply Hset |].
    pose proof (cmd_set_sized 0 v flash Hsz) as H.
    unfold command_sized, MAX_CMD_SIZE in H. rewrite H. simpl. lia. }
  assert (Hset5 : forall v i, (5 <= i)%nat ->
            command (cmd_set 0 v flash) !! i = command flash !! i).
  { intros v i Hi. rewrite cmd_set_command.
    apply list_lookup_insert_ne. simpl. lia. }
  assert (Hadr5 : forall v a i, (5 <= i)%nat ->
            command (m25p_addr2cmd nor a (cmd_set 0 v flash)) !! i
            = command flash !! i).
  { intros v a i Hi. rewrite m25p_addr2cmd_command.
    rewrite !list_lookup_insert_ne by lia. apply Hset5. exact Hi. }
  assert (Hsetl : forall v,
            length (command (cmd_set 0 v flash)) = length (command flash))
    by (intros v; unfold cmd_set; apply cmd_store_length).
  assert (Hadrl : forall v a,
            length (command (m25p_addr2cmd nor a (cmd_set 0 v flash)))
            = length (command flash))
    by (intros v a; rewrite m25p_addr2cmd_length; apply Hsetl).
  rewrite m25p80_erase_eq, m25p80_write_eq. cbv zeta. cbn [snd].
  match goal with |- overrun (snd (fst (spi_sync ?f ?b ?xs))) = _ /\ _ =>
    destruct (spi_sync_tx_only f b xs) as [Hce Hove] end.
  { repeat constructor. }
  match goal with |- _ /\ overrun (snd (fst (spi_sync ?f ?b ?xs))) = _ /\ _ =>
    assert (Hall : Forall (fun x => rx_buf x = NULL) xs)
      by (destruct (_ >? 1); [destruct (u32 _ =? u32 _) |];
          repeat constructor);
    destruct (spi_sync_tx_only f b xs Hall) as [Hcw Hovw] end.
  rewrite Hove, Hovw, Hce, Hcw.
  split; [apply Hadr |].
  split; [destruct (_ >? 1); [apply Hadr | apply Hset] |].
  split.
  - intros i Hi. split; [apply Hadr5; exact Hi |].
    destruct (_ >? 1); [apply Hadr5 | apply Hset5]; exact Hi.
  - split; [apply Hadrl |].
    destruct (_ >? 1); [apply Hadrl | apply Hsetl].
Qed.

(** X12. The capacity check of a register read lets every negative
    length through: the call is not rejected, the receive transfer asks
    for [n + 2 ^ 32] bytes, and when the SPI core reports success the
    copy to the caller runs past the command array. *)
Theorem m25p80_read_reg_negative_length (nor : spi_nor) (flash : m25p)
    (code : Z) (val : list Z) (n : Z) :
  command_sized flash ->
  INT_MIN <= n < 0 ->
  32 <= BITS_PER_LONG ->
  let '(_, code_nbits, _, data_nbits) := m25p80_proto2nbits (reg_proto nor) in
  let '(ret, flash', _) := m25p80_read_reg nor flash code val n in
  exists msg,
    spi flash' = spi flash ++ [msg]
    /\ transfers msg = [mk_transfer (command_at 0) NULL 1 code_nbits 0;
                        mk_transfer NULL (command_at 1) (n + 2 ^ 32) 0 data_nbits]
    /\ (0 <= ret -> overrun flash' = true).
Proof.
  intros Hsz Hn Hbits. unfold m25p80_proto2nbits.
  unfold INT_MIN in Hn. change (- 2 ^ 31) with (-2147483648) in Hn.
  rewrite m25p80_read_reg_eq. cbv zeta.
  rewrite s32_id by (unfold INT_MIN, INT_MAX; lia).
  unfold MAX_CMD_SIZE at 1.
  replace (n + 1 >? 16) with false
    by (symmetry; rewrite Z.gtb_ltb; apply Z.ltb_ge; lia).
  assert (Hu : u32 n = n + 2 ^ 32).
  { unfold u32. change (2 ^ 32) with 4294967296.
    symmetry. apply Z.mod_unique_pos with (q := -1); lia. }
  rewrite Hu.
  assert (Hpow : 2 ^ 32 <= 2 ^ BITS_PER_LONG) by (apply Z.pow_le_mono_r; lia).
  change (2 ^ 32) with 4294967296 in Hpow.
  assert (Hs : size_t BITS_PER_LONG n = n + 2 ^ BITS_PER_LONG).
  { unfold size_t. symmetry. apply Z.mod_unique_pos with (q := -1); lia. }
  rewrite Hs.
  destruct (_ <? 0) eqn:Hret; cbn [fst snd memcpy_from_cmd spi overrun];
    rewrite spi_sync_spi; eexists; (split; [reflexivity |]);
    (split; [reflexivity |]); intros Hok.
  - apply Z.ltb_lt in Hret. lia.
  - rewrite spi_sync_length. unfold cmd_set. rewrite cmd_store_length.
    unfold command_sized, MAX_CMD_SIZE in Hsz. rewrite Hsz.
    replace (Z.of_nat (Z.to_nat 16) <? 1 + (n + 2 ^ BITS_PER_LONG)) with true
      by (symmetry; apply Z.ltb_lt; lia).
    now rewrite orb_true_r.
Qed.

Lemma m25p80_write_step nor flash to n retlen buf :
  0 <= addr_width nor <= 255 ->
  let header :=
    if (program_opcode nor =? SPINOR_OP_AAI_WP) && sst_write_second nor
    then 1 else 1 + addr_width nor in
  exists msg,
    spi (m25p80_write nor flash to n retlen buf).2 = spi flash ++ [msg]
    /\ (m25p80_write nor flash to n retlen buf).1
       = size_t BITS_PER_LONG
           (retlen + u32 (u32 (actual_length (spi_bus (spi flash) msg)) - header)).
Proof.
  intros Haw. cbv zeta.
  rewrite m25p80_write_eq. cbv zeta.
  unfold m25p_cmdsz. rewrite s32_id by (unfold INT_MIN, INT_MAX; lia).
  rewrite spi_sync_reply. cbv zeta. cbn [actual_length fst snd].
  rewrite spi_sync_spi.
  destruct (_ && _); [| destruct (_ >? 1)];
    eexists; split; reflexivity.
Qed.

(** X13. Two bulk writes in a row, the second starting from the count
    the first left: both messages reach the SPI core in order, the
    second answered in view of the first, and the count ends at its
    initial value plus what each transfer carried beyond its header. *)
Theorem m25p80_write_twice (nor : spi_nor) (flash : m25p)
    (to1 n1 to2 n2 retlen : Z) (buf1 buf2 : list Z) :
  0 <= addr_width nor <= 255 ->
  let header :=
    if (program_opcode nor =? SPINOR_OP_AAI_WP) && sst_write_second nor
    then 1 else 1 + addr_width nor in
  let '(retlen1, flash1) := m25p80_write nor flash to1 n1 retlen buf1 in
  let '(retlen2, flash2) := m25p80_write nor flash1 to2 n2 retlen1 buf2 in
  exists msg1 msg2,
    spi flash2 = spi flash ++ [msg1; msg2]
    /\ (let actual1 := u32 (actual_length (spi_bus (spi flash) msg1)) in
        let actual2 :=
          u32 (actual_length (spi_bus (spi flash ++ [msg1]) msg2)) in
        header <= actual1 -> header <= actual2 -> 0 <= retlen ->
        retlen + (actual1 - header) + (actual2 - header) < 2 ^ BITS_PER_LONG ->
        retlen2 = retlen + (actual1 - header) + (actual2 - header)).
Proof.
  intros Haw. cbv zeta.
  destruct (m25p80_write_step nor flash to1 n1 retlen buf1 Haw)
    as (msg1 & Hs1 & Hr1).
  destruct (m25p80_write nor flash to1 n1 retlen buf1) as [retlen1 flash1].
  cbn [fst snd] in Hs1, Hr1.
  destruct (m25p80_write_step nor flash1 to2 n2 retlen1 buf2 Haw)
    as (msg2 & Hs2 & Hr2).
  destruct (m25p80_write nor flash1 to2 n2 retlen1 buf2) as [retlen2 flash2].
  cbn [fst snd] in Hs2, Hr2.
  exists msg1, msg2. split.
  { rewrite Hs2, Hs1, <- app_assoc. reflexivity. }
  rewrite Hs1 in Hr2. intros H1 H2 H0 Hlt.
  pose proof (u32_range (actual_length (spi_bus (spi flash) msg1))) as Hu1.
  pose proof (u32_range (actual_length (spi_bus (spi flash ++ [msg1]) msg2))) as Hu2.
  set (a1 := u32 (actual_length (spi_bus (spi flash) msg1))) in *.
  set (a2 := u32 (actual_length (spi_bus (spi flash ++ [msg1]) msg2))) in *.
  set (h := if (program_opcode nor =? SPINOR_OP_AAI_WP) && sst_write_second nor
            then 1 else 1 + addr_width nor) in *.
  assert (Hh : 1 <= h) by (subst h; destruct (_ && _); lia).
  change (2 ^ 32) with 4294967296 in Hu1, Hu2.
  rewrite Hr2, Hr1.
  rewrite (u32_id (a1 - h)), (u32_id (a2 - h))
    by (change (2 ^ 32) with 4294967296; lia).
  rewrite (size_t_id _ (retlen + _)) by lia.
  apply size_t_id. lia.
Qed.

Lemma take_inserts_fit (l k : list Z) (i : nat) :
  (i + length k <= length l)%nat ->
  take (i + length k) (list_inserts i k l) = take i l ++ k.
Proof.
  intros Hfit. apply list_eq. intros j.
  destruct (Nat.lt_ge_cases j i) as [Hlt | Hge].
  - rewrite lookup_take_lt by lia.
    rewrite list_lookup_inserts_lt by lia.
    rewrite lookup_app_l by (rewrite length_take; lia).
    now rewrite lookup_take_lt by lia.
  - destruct (Nat.lt_ge_cases j (i + length k)) as [Hin | Hout].
    + rewrite lookup_take_lt by lia.
      rewrite list_lookup_inserts by lia.
      rewrite lookup_app_r by (rewrite length_take; lia).
      rewrite length_take. f_equal. lia.
    + rewrite lookup_take_ge by lia. symmetry.
      apply lookup_ge_None_2. rewrite length_app, length_take. lia.
Qed.

(** The opcode and address bytes staged do not depend on what the array
    held before. *)
Lemma staged_header_fresh nor opcode addr flash1 flash2 :
  command_sized flash1 -> command_sized flash2 ->
  addr_width nor = 3 \/ addr_width nor = 4 ->
  take (Z.to_nat (1 + addr_width nor))
       (command (m25p_addr2cmd nor addr (cmd_set 0 opcode flash1)))
  = take (Z.to_nat (1 + addr_width nor))
         (command (m25p_addr2cmd nor addr (cmd_set 0 opcode flash2))).
Proof.
  intros H1 H2 Hw.
  spell_command flash1 H1. rename log into log1, ov into ov1.
  spell_command flash2 H2.
  destruct Hw as [Hw | Hw]; rewrite Hw.
  - erewrite !m25p_addr2cmd_bytes_3; [| exact Hw | reflexivity | exact Hw | reflexivity].
    reflexivity.
  - erewrite !m25p_addr2cmd_bytes_4; [| exact Hw | reflexivity | exact Hw | reflexivity].
    reflexivity.
Qed.

(** X14. What an erase, a bulk write or a bulk read transmits from the
    command array does not depend on what an earlier operation left in
    it: with a 3- or 4-byte address, two devices that differ only in the
    contents of their command arrays send the same header bytes (opcode
    and address; the opcode alone for the second half of an AAI
    program), and a read whose dummy bytes fit sends the same dummy
    bytes too. *)
Theorem header_ignores_stale_bytes (nor : spi_nor) (flash1 flash2 : m25p)
    (offset n retlen : Z) (buf : list Z) :
  command_sized flash1 ->
  command_sized flash2 ->
  addr_width nor = 3 \/ addr_width nor = 4 ->
  0 <= read_dummy nor ->
  let '(_, _, addr_nbits, _) := m25p80_proto2nbits (read_proto nor) in
  let dummy_bytes := read_dummy nor * addr_nbits / 8 in
  1 + addr_width nor + dummy_bytes <= MAX_CMD_SIZE ->
  let header := Z.to_nat (1 + addr_width nor) in
  let write_header :=
    if (program_opcode nor =? SPINOR_OP_AAI_WP) && sst_write_second nor
    then 1%nat else header in
  let sent (k : nat) (flash' : m25p) : option (list Z) :=
    (fun msg => take k (command_bytes msg)) <$> last (spi flash') in
  sent header (m25p80_erase nor flash1 offset).2
  = sent header (m25p80_erase nor flash2 offset).2
  /\ sent write_header (m25p80_write nor flash1 offset n retlen buf).2
     = sent write_header (m25p80_write nor flash2 offset n retlen buf).2
  /\ sent (header + Z.to_nat dummy_bytes)%nat
          (m25p80_read nor flash1 offset n retlen buf).1.2
     = sent (header + Z.to_nat dummy_bytes)%nat
            (m25p80_read nor flash2 offset n retlen buf).1.2.
Proof.
  intros H1 H2 Hw Hrd. unfold m25p80_proto2nbits. cbv zeta. intros Hfit.
  split; [| split].
  - rewrite !m25p80_erase_eq. cbv zeta. cbn [snd].
    rewrite !spi_sync_spi, !last_snoc.
    cbn [fmap option_fmap option_map command_bytes].
    f_equal. apply staged_header_fresh; assumption.
  - rewrite !m25p80_write_eq. cbv zeta. cbn [snd].
    rewrite !spi_sync_spi, !last_snoc.
    cbn [fmap option_fmap option_map command_bytes].
    f_equal.
    destruct (_ && _).
    + change (1 >? 1) with false. cbv iota.
      spell_command flash1 H1. rename log into log1, ov into ov1.
      spell_command flash2 H2. reflexivity.
    + assert (Hgt : (m25p_cmdsz nor >? 1) = true)
        by (unfold m25p_cmdsz; destruct Hw as [-> | ->]; reflexivity).
      rewrite Hgt. apply staged_header_fresh; assumption.
  - rewrite !m25p80_read_eq. cbv zeta. cbn [fst snd].
    rewrite !spi_sync_spi, !last_snoc.
    cbn [fmap option_fmap option_map command_bytes].
    f_equal.
    pose proof (u32_range (SNOR_PROTO_ADDR_FROM_PROTO (read_proto nor))) as Hl.
    set (lanes := u32 (SNOR_PROTO_ADDR_FROM_PROTO (read_proto nor))) in *.
    assert (Hd0 : 0 <= read_dummy nor * lanes / 8)
      by (apply Z.div_pos; [nia | lia]).
    rewrite (dummy_bytes_exact (read_dummy nor) lanes 16)
      by (unfold MAX_CMD_SIZE in Hfit; lia).
    set (d := read_dummy nor * lanes / 8) in *.
    unfold MAX_CMD_SIZE in Hfit.
    unfold cmd_memset, cmd_store. cbn [command].
    assert (Hk : length (u8 <$> replicate (Z.to_nat d) 0) = Z.to_nat d)
      by (rewrite length_fmap, length_replicate; reflexivity).
    rewrite <- Hk at 1 3.
    rewrite !take_inserts_fit.
    + f_equal. apply staged_header_fresh; assumption.
    + rewrite Hk, m25p_addr2cmd_length. unfold cmd_set.
      rewrite cmd_store_length. unfold command_sized, MAX_CMD_SIZE in H2.
      rewrite H2. lia.
    + rewrite Hk, m25p_addr2cmd_length. unfold cmd_set.
      rewrite cmd_store_length. unfold command_sized, MAX_CMD_SIZE in H1.
      rewrite H1. lia.
Qed.

End Further.

(** X15. Nothing a bulk read or an erase gives back depends on the
    status the SPI core reports: the result is the same whatever that
    status is, and the value returned is always 0. *)
Theorem bulk_read_erase_ignore_status {pf : Platform} (f : Z -> Z)
    (nor : spi_nor) (flash : m25p) (offset n retlen : Z) (buf : list Z) :
  m25p80_read (pf := with_status f pf) nor flash offset n retlen buf
  = m25p80_read nor flash offset n retlen buf
  /\ (m25p80_read nor flash offset n retlen buf).1.1.1 = 0
  /\ m25p80_erase (pf := with_status f pf) nor flash offset
     = m25p80_erase nor flash offset
  /\ (m25p80_erase nor flash offset).1 = 0.
Proof.
  split; [| split; [| split]].
  - rewrite (m25p80_read_eq (pf := with_status f pf)), (m25p80_read_eq (pf := pf)).
    cbv zeta.
    change (@m25p_addr2cmd (with_status f pf)) with (@m25p_addr2cmd pf).
    cbn [SNOR_PROTO_CODE_FROM_PROTO SNOR_PROTO_ADDR_FROM_PROTO
         SNOR_PROTO_DATA_FROM_PROTO BITS_PER_LONG with_status].
    match goal with |- context [spi_sync (pf := with_status f pf) ?fl ?b ?xs] =>
      destruct (spi_sync_with_status f fl b xs) as (Ha & Hf & Hb) end.
    rewrite Ha, Hf, Hb. reflexivity.
  - rewrite m25p80_read_eq. reflexivity.
  - rewrite (m25p80_erase_eq (pf := with_status f pf)), (m25p80_erase_eq (pf := pf)).
    cbv zeta.
    change (@m25p_addr2cmd (with_status f pf)) with (@m25p_addr2cmd pf).
    match goal with |- context [spi_sync (pf := with_status f pf) ?fl ?b ?xs] =>
      destruct (spi_sync_with_status f fl b xs) as (_ & Hf & _) end.
    rewrite Hf. reflexivity.
  - rewrite m25p80_erase_eq. reflexivity.
Qed.

(** ** Probing *)

Lemma land_pow2_eqb (m k : Z) :
  0 <= k -> (Z.land m (2 ^ k) =? 0) = negb (Z.testbit m k).
Proof.
  intros Hk. destruct (Z.testbit m k) eqn:Hbit; simpl.
  - apply Z.eqb_neq. intros Hz.
    assert (Hb : Z.testbit (Z.land m (2 ^ k)) k = true).
    { rewrite Z.land_spec, Hbit, Z.pow2_bits_true by lia. reflexivity. }
    rewrite Hz, Z.bits_0 in Hb. discriminate Hb.
  - apply Z.eqb_eq. apply Z.bits_inj'. intros i Hi.
    rewrite Z.land_spec, Z.bits_0.
    destruct (Z.eq_dec i k) as [-> | Hne].
    + now rewrite Hbit.
    + rewrite (Z.pow2_bits_false k i) by lia. apply andb_false_r.
Qed.

(** X16. The modes a probe asks of the spi-nor library depend on bits
    10 and 11 of the controller's mode word only: writes are always
    1-1-1; reads always include the slow read, plus 1-1-4 when the
    controller receives on four lines, plus 1-1-2 when it receives on
    two lines and not on four; it never adds both 1-1-2 and 1-1-4. *)
Theorem m25p_probe_modes {core : SpiNorCore}
    (spi : spi_device) (data : option flash_platform_data) :
  let quad := Z.testbit (mode spi) 11 in
  let dual := Z.testbit (mode spi) 10 in
  exists mtd_name flash_name later,
    (m25p_probe true spi data).2
    = scan_call mtd_name flash_name
        (mk_spi_nor_modes
           (if quad then Z.lor SNOR_MODE_SLOW SNOR_MODE_1_1_4
            else if dual then Z.lor SNOR_MODE_SLOW SNOR_MODE_1_1_2
            else SNOR_MODE_SLOW)
           SNOR_MODE_1_1_1) :: later.
Proof.
  cbv zeta. unfold m25p_probe. cbn [negb].
  change SPI_RX_QUAD with (2 ^ 11). change SPI_RX_DUAL with (2 ^ 10).
  rewrite !land_pow2_eqb by lia. rewrite !negb_involutive.
  cbn [rd_modes wr_modes].
  destruct (Z.testbit (mode spi) 11); [| destruct (Z.testbit (mode spi) 10)];
    destruct (spi_nor_scan _ _ _) as [ret nor];
    destruct (negb (ret =? 0)); eexists _, _, _; reflexivity.
Qed.

(** X17. A probe that gets no memory returns [-ENOMEM] and calls
    nothing.  Otherwise it scans first, under the type given in the
    platform data when there is one (whatever name they give) and under
    the device's modalias when there is none; the device is registered
    only after a scan that returned 0, with the partitions of the
    platform data; the value returned is the error of the scan, or else
    what the registration returned. *)
Theorem m25p_probe_flow {core : SpiNorCore}
    (spi : spi_device) (data : option flash_platform_data) :
  m25p_probe false spi data = (- ENOMEM, [])
  /\ (let '(ret, calls) := m25p_probe true spi data in
      exists modes,
        let mtd_name := data ≫= name in
        let flash_name := default (modalias spi) (data ≫= type) in
        let scanned := spi_nor_scan mtd_name flash_name modes in
        (scanned.1 <> 0
         /\ ret = scanned.1
         /\ calls = [scan_call mtd_name flash_name modes])
        \/ (scanned.1 = 0
            /\ ret = mtd_device_parse_register scanned.2 (data ≫= parts)
                       (default 0 (nr_parts <$> data))
            /\ calls = [scan_call mtd_name flash_name modes;
                        register_call scanned.2 (data ≫= parts)
                                      (default 0 (nr_parts <$> data))])).
Proof.
  split; [reflexivity |].
  unfold m25p_probe. cbn [negb].
  set (modes := if negb (Z.land (mode spi) SPI_RX_QUAD =? 0) then _ else _).
  assert (Hname : match data with
                  | Some d => match name d with Some n => Some n | None => None end
                  | None => None
                  end = data ≫= name)
    by (destruct data as [[[nm |] ty ps k] |]; reflexivity).
  assert (Htype : match data with
                  | Some d => match type d with Some t => t | None => modalias spi end
                  | None => modalias spi
                  end = default (modalias spi) (data ≫= type))
    by (destruct data as [[nm [ty |] ps k] |]; reflexivity).
  assert (Hparts : match data with Some d => parts d | None => None end
                   = data ≫= parts)
    by (destruct data; reflexivity).
  assert (Hnr : match data with Some d => nr_parts d | None => 0 end
                = default 0 (nr_parts <$> data))
    by (destruct data; reflexivity).
  rewrite Hname, Htype, Hparts, Hnr.
  destruct (spi_nor_scan _ _ _) as [ret nor] eqn:Hscan.
  destruct (ret =? 0) eqn:Hret; cbn [negb]; exists modes; cbv zeta;
    rewrite Hscan; cbn [fst snd].
  - right. apply Z.eqb_eq in Hret. subst ret. repeat split.
  - left. apply Z.eqb_neq in Hret. repeat split. exact Hret.
Qed.

(** ** Examples on the fixtures *)

Lemma m25p_addr2cmd_big_endian_witness :
  command_sized Fixture.flash0
  /\ be_decode (cmd_load 1 3
        (m25p_addr2cmd (pf := Fixture.working) (Fixture.nor 3 0 0x111)
                       0x1234567 Fixture.flash0)) = 0x234567
  /\ be_decode (cmd_load 1 4
        (m25p_addr2cmd (pf := Fixture.working) (Fixture.nor 4 0 0x111)
                       0x1234567 Fixture.flash0)) = 0x1234567.
Proof.
  assert (Hsz : command_sized Fixture.flash0) by reflexivity.
  split; [exact Hsz |]. split.
  - destruct (m25p_addr2cmd_big_endian (pf := Fixture.working)
                (Fixture.nor 3 0 0x111) 0x1234567 Fixture.flash0 Hsz
                (or_introl eq_refl)) as (_ & Hdec & _).
    exact Hdec.
  - destruct (m25p_addr2cmd_big_endian (pf := Fixture.working)
                (Fixture.nor 4 0 0x111) 0x1234567 Fixture.flash0 Hsz
                (or_intror eq_refl)) as (_ & Hdec & _).
    exact Hdec.
Defined.

Lemma m25p80_read_phase_count_witness :
  0 <= 3 <= 255
  /\ 8 * 1 < 2 ^ 32
  /\ (exists msg,
        spi (m25p80_read (pf := Fixture.working) (Fixture.nor 3 8 0x111)
               Fixture.flash0 0x001000 256 0 []).1.2 = [msg]
        /\ len <$> transfers msg = [1 + 3 + 1; 256])
  /\ (exists msg,
        spi (m25p80_read (pf := Fixture.working) (Fixture.nor 3 8 0x144)
               Fixture.flash0 0x001000 256 0 []).1.2 = [msg]
        /\ len <$> transfers msg = [1; 3 + 4; 256]).
Proof.
  assert (Haw : 0 <= 3 <= 255) by lia.
  assert (Hp1 : 8 * 1 < 2 ^ 32) by (vm_compute; reflexivity).
  assert (Hp4 : 8 * 4 < 2 ^ 32) by (vm_compute; reflexivity).
  assert (Hn : 0 <= 256 < 2 ^ 32)
    by (vm_compute; split; [discriminate | reflexivity]).
  split; [exact Haw |]. split; [exact Hp1 |]. split.
  - destruct (m25p80_read_phase_count (pf := Fixture.working)
                (Fixture.nor 3 8 0x111) Fixture.flash0 0x001000 256 0 [])
      as (msg & Hspi & _ & _ & _ & _ & Hlens).
    exists msg. split; [exact Hspi |].
    exact (Hlens Haw ltac:(simpl; lia) Hp1 Hn).
  - destruct (m25p80_read_phase_count (pf := Fixture.working)
                (Fixture.nor 3 8 0x144) Fixture.flash0 0x001000 256 0 [])
      as (msg & Hspi & _ & _ & _ & _ & Hlens).
    exists msg. split; [exact Hspi |].
    exact (Hlens Haw ltac:(simpl; lia) Hp4 Hn).
Defined.

Lemma m25p80_read_dummy_zero_filled_witness :
  command_sized Fixture.flash0
  /\ 1 + 3 + 8 * 4 / 8 <= MAX_CMD_SIZE
  /\ exists msg,
       spi (m25p80_read (pf := Fixture.working) (Fixture.nor 3 8 0x144)
                        Fixture.flash0 0x001000 256 0 []).1.2 = [msg]
       /\ command_bytes msg !! 4%nat = Some 0
       /\ command_bytes msg !! 7%nat = Some 0
       /\ len <$> transfers msg = [1; 7; 256].
Proof.
  assert (Hsz : command_sized Fixture.flash0) by reflexivity.
  assert (Hfit : 1 + 3 + 8 * 4 / 8 <= MAX_CMD_SIZE) by (vm_compute; discriminate).
  split; [exact Hsz |]. split; [exact Hfit |].
  destruct (m25p80_read_dummy_zero_filled (pf := Fixture.working)
              (Fixture.nor 3 8 0x144) Fixture.flash0 0x001000 256 0 []
              Hsz ltac:(simpl; lia) ltac:(simpl; lia) Hfit)
    as (msg & Hspi & Hzero & Hlen & _).
  exists msg. split; [exact Hspi |].
  split; [apply (Hzero 0); vm_compute; split; [discriminate | reflexivity] |].
  split; [apply (Hzero 3); vm_compute; split; [discriminate | reflexivity] |].
  exact Hlen.
Defined.

(** C1. With 104 dummy cycles on one lane and a 3-byte address the read
    computes 13 dummy bytes and clears them from byte 4 of the command
    array on: the 12 that the 16-byte array has room for are staged as
    0x00, the 13th is stored past its end, and the first transfer, of
    17 bytes, reaches past the array as well.  Nothing in the read
    checks the header against [MAX_CMD_SIZE]. *)
Theorem m25p80_read_dummy_store_past_array :
  exists msg,
    spi (m25p80_read (pf := Fixture.working) (Fixture.nor 3 104 0x111)
                     Fixture.flash0 0x001000 256 0 []).1.2 = [msg]
    /\ 104 * 1 / 8 = 13
    /\ len <$> transfers msg = [1 + 3 + 13; 256]
    /\ Z.of_nat (length (command_bytes msg)) = MAX_CMD_SIZE
    /\ MAX_CMD_SIZE < 1 + 3 + 13
    /\ drop 4 (command_bytes msg) = replicate 12 0
    /\ overrun (m25p80_read (pf := Fixture.working) (Fixture.nor 3 104 0x111)
                            Fixture.flash0 0x001000 256 0 []).1.2 = true
    /\ overrun Fixture.flash0 = false.
Proof.
  eexists. split; [reflexivity |].
  repeat split.
Qed.

Lemma m25p80_read_reg_capacity_witness :
  INT_MIN <= 3 < INT_MAX
  /\ m25p80_read_reg (pf := Fixture.working) (Fixture.nor 3 0 0x111)
        Fixture.flash0 0x9f [0; 0; 0] 16
      = (- EINVAL, Fixture.flash0, [0; 0; 0])
  /\ m25p80_read_reg (pf := Fixture.working) (Fixture.nor 3 0 0x111)
        Fixture.flash0 0x9f [0; 0; 0] 3
      <> (- EINVAL, Fixture.flash0, [0; 0; 0]).
Proof.
  assert (Hn : INT_MIN <= 3 < INT_MAX) by (vm_compute; split; [discriminate | reflexivity]).
  split; [exact Hn |].
  destruct (m25p80_read_reg_capacity (pf := Fixture.working)
              (Fixture.nor 3 0 0x111) Fixture.flash0 0x9f [0; 0; 0] 3 Hn)
    as (Hrej & _ & _ & _ & Hgo).
  split; [exact Hrej |].
  apply Hgo. vm_compute. discriminate.
Defined.

Lemma register_ops_return_bus_status_witness :
  (forall seen m, INT_MIN <= status (spi_bus (Platform := Fixture.failing) seen m) <= INT_MAX)
  /\ s32 (3 + 1) <= MAX_CMD_SIZE
  /\ (m25p80_read_reg (pf := Fixture.failing) (Fixture.nor 3 0 0x111)
        Fixture.flash0 0x9f [0; 0; 0] 3).1.1 = - Fixture.EIO
  /\ (m25p80_write_reg (pf := Fixture.failing) (Fixture.nor 3 0 0x111)
        Fixture.flash0 0x9f (Some [7; 8; 9]) 3).1 = - Fixture.EIO
  /\ m25p80_write (pf := with_status (fun _ => - Fixture.EIO) Fixture.working)
        (Fixture.nor 3 0 0x111) Fixture.flash0 0x001000 256 0 []
      = m25p80_write (pf := Fixture.working)
        (Fixture.nor 3 0 0x111) Fixture.flash0 0x001000 256 0 [].
Proof.
  assert (Hint : forall seen m,
            INT_MIN <= status (spi_bus (Platform := Fixture.failing) seen m) <= INT_MAX)
    by (intros; vm_compute; split; discriminate).
  assert (Hfit : s32 (3 + 1) <= MAX_CMD_SIZE) by (vm_compute; discriminate).
  split; [exact Hint |]. split; [exact Hfit |].
  destruct (register_ops_return_bus_status (pf := Fixture.failing)
              (Fixture.nor 3 0 0x111) Fixture.flash0 0x9f [0; 0; 0]
              (Some [7; 8; 9]) 3 0 0 0 [] (fun st => st))
    as [Hreg _].
  destruct (Hreg Hint Hfit) as [(m1 & _ & Hr) (m2 & _ & Hw)].
  split; [exact Hr |]. split; [exact Hw |].
  exact (proj2 (register_ops_return_bus_status (pf := Fixture.working)
                  (Fixture.nor 3 0 0x111) Fixture.flash0 0 [] None 0
                  0x001000 256 0 [] (fun _ => - Fixture.EIO))).
Defined.

(** A controller that fails every message with [-EIO]: the bulk read
    and the erase still return 0, and the bulk write gives its caller
    exactly what it gives when the controller reports success. *)
Lemma bulk_ops_drop_bus_status :
  (forall seen m, status (spi_bus (Platform := Fixture.failing) seen m) = - Fixture.EIO)
  /\ (m25p80_read (pf := Fixture.failing) (Fixture.nor 3 0 0x111)
        Fixture.flash0 0 4 0 [0; 0; 0; 0]).1.1.1 = 0
  /\ (m25p80_erase (pf := Fixture.failing) (Fixture.nor 3 0 0x111)
        Fixture.flash0 0).1 = 0
  /\ m25p80_write (pf := Fixture.failing) (Fixture.nor 3 0 0x111)
        Fixture.flash0 0 4 0 [1; 2; 3; 4]
      = m25p80_write (pf := Fixture.platform 0 0 []) (Fixture.nor 3 0 0x111)
        Fixture.flash0 0 4 0 [1; 2; 3; 4].
Proof. repeat split. Qed.

Lemma m25p80_read_scenario_witness :
  command_sized Fixture.flash0
  /\ (forall seen m, actual_length (spi_bus (Platform := Fixture.working) seen m) = 260)
  /\ exists msg,
       spi (m25p80_read (pf := Fixture.working) (Fixture.nor 3 8 0x122)
                        Fixture.flash0 0x001000 256 0 []).1.2 = [msg]
       /\ len <$> transfers msg = [1; 5; 256]
       /\ (m25p80_read (pf := Fixture.working) (Fixture.nor 3 8 0x122)
                        Fixture.flash0 0x001000 256 0 []).1.1.2 = 254.
Proof.
  assert (Hsz : command_sized Fixture.flash0) by reflexivity.
  assert (Hbus : forall seen m,
            actual_length (spi_bus (Platform := Fixture.working) seen m) = 260)
    by reflexivity.
  split; [exact Hsz |]. split; [exact Hbus |].
  destruct (m25p80_read_scenario (pf := Fixture.working)
              (Fixture.nor 3 8 0x122) Fixture.flash0 0 []
              Hsz eq_refl eq_refl ltac:(vm_compute; discriminate) Hbus
              eq_refl (or_intror (or_introl eq_refl)))
    as (msg & Hspi & Hx & _ & _ & Hret).
  exists msg. split; [exact Hspi |].
  split; [rewrite Hx; reflexivity | exact Hret].
Defined.

(** The scenario on SPI 1-1-1, where the address lanes equal the data
    lanes: the first transfer is 5 bytes long, not 4, and 260 bytes on
    the wire leave 255 for the caller, not 256. *)
Lemma m25p80_read_scenario_counts_dummy :
  exists msg,
    spi (m25p80_read (pf := Fixture.working) (Fixture.nor 3 8 0x111)
                     Fixture.flash0 0x001000 256 0 []).1.2 = [msg]
    /\ len <$> transfers msg = [5; 256]
    /\ len <$> transfers msg <> [4; 256]
    /\ (m25p80_read (pf := Fixture.working) (Fixture.nor 3 8 0x111)
                     Fixture.flash0 0x001000 256 0 []).1.1.2 = 255
    /\ (m25p80_read (pf := Fixture.working) (Fixture.nor 3 8 0x111)
                     Fixture.flash0 0x001000 256 0 []).1.1.2 <> 256.
Proof.
  eexists. split; [reflexivity |].
  split; [reflexivity |]. split; [discriminate |].
  split; [reflexivity | discriminate].
Qed.

Lemma m25p80_write_reg_payload_witness :
  command_sized Fixture.flash0
  /\ 2 + 1 <= MAX_CMD_SIZE
  /\ exists msg,
       spi (m25p80_write_reg (pf := Fixture.working) (Fixture.nor 3 0 0x111)
              Fixture.flash0 0x01 (Some [0x5A; 0xC3]) 2).2 = [msg]
       /\ take 3 (command_bytes msg) = [0x01; 0x5A; 0xC3]
       /\ len <$> transfers msg = [3].
Proof.
  assert (Hsz : command_sized Fixture.flash0) by reflexivity.
  assert (Hfit : 2 + 1 <= MAX_CMD_SIZE) by (vm_compute; discriminate).
  split; [exact Hsz |]. split; [exact Hfit |].
  destruct (m25p80_write_reg_payload (pf := Fixture.working)
              (Fixture.nor 3 0 0x111) Fixture.flash0 0x01 [0x5A; 0xC3] 2
              Hsz ltac:(lia) Hfit ltac:(simpl; lia) ltac:(vm_compute; discriminate))
    as (msg & Hspi & Hbytes & Hx & _).
  exists msg. split; [exact Hspi |].
  split; [rewrite Hbytes; reflexivity | rewrite Hx; reflexivity].
Defined.

Lemma m25p80_write_retlen_witness :
  0 <= 3 <= 255
  /\ (m25p80_write (pf := Fixture.working) (Fixture.nor 3 0 0x111)
        Fixture.flash0 0x001000 256 100 []).1 = 100 + (260 - (1 + 3))
  /\ (m25p80_write (pf := Fixture.working) Fixture.nor_aai_second
        Fixture.flash0 0x001000 256 100 []).1 = 100 + (260 - 1).
Proof.
  assert (Haw : 0 <= 3 <= 255) by lia.
  split; [exact Haw |]. split.
  - destruct (m25p80_write_retlen (pf := Fixture.working)
                (Fixture.nor 3 0 0x111) Fixture.flash0 0x001000 256 100 [] Haw)
      as (msg & _ & [_ Hexact] & _).
    apply Hexact; vm_compute; congruence.
  - destruct (m25p80_write_retlen (pf := Fixture.working)
                Fixture.nor_aai_second Fixture.flash0 0x001000 256 100 [] Haw)
      as (msg & _ & [_ Hexact] & _).
    apply Hexact; vm_compute; congruence.
Defined.

Lemma m25p80_erase_header_only_witness :
  command_sized Fixture.flash0
  /\ 0 <= 4 <= 255
  /\ exists msg,
       spi (m25p80_erase (pf := Fixture.working) (Fixture.nor 4 0 0x111)
                         Fixture.flash0 0x00FF00).2 = [msg]
       /\ len <$> transfers msg = [5]
       /\ be_decode (take 4 (drop 1 (command_bytes msg))) = 0x00FF00.
Proof.
  assert (Hsz : command_sized Fixture.flash0) by reflexivity.
  assert (Haw : 0 <= 4 <= 255) by lia.
  split; [exact Hsz |]. split; [exact Haw |].
  destruct (m25p80_erase_header_only (pf := Fixture.working)
              (Fixture.nor 4 0 0x111) Fixture.flash0 0x00FF00 Hsz Haw)
    as (msg & Hspi & _ & _ & Hdec & Hlen & _).
  exists msg. split; [exact Hspi |].
  split; [exact (Hlen eq_refl) | exact (Hdec (or_intror eq_refl))].
Defined.

Lemma m25p80_read_reg_error_keeps_val_witness :
  (m25p80_read_reg (pf := Fixture.failing) (Fixture.nor 3 0 0x111)
     Fixture.flash0 0x9f [0x11; 0x22; 0x33] 3).1.1 < 0
  /\ (m25p80_read_reg (pf := Fixture.failing) (Fixture.nor 3 0 0x111)
        Fixture.flash0 0x9f [0x11; 0x22; 0x33] 3).2 = [0x11; 0x22; 0x33].
Proof.
  assert (Hret : (m25p80_read_reg (pf := Fixture.failing) (Fixture.nor 3 0 0x111)
                    Fixture.flash0 0x9f [0x11; 0x22; 0x33] 3).1.1 < 0)
    by reflexivity.
  split; [exact Hret |].
  destruct (m25p80_read_reg_error_keeps_val (pf := Fixture.failing)
              (Fixture.nor 3 0 0x111) Fixture.flash0 0x9f [0x11; 0x22; 0x33] 3)
    as [Herr _].
  exact (Herr Hret).
Defined.

Lemma m25p_addr2cmd_frame_witness :
  (5 <= length (command Fixture.flash0))%nat
  /\ command (m25p_addr2cmd (pf := Fixture.working) (Fixture.nor 3 0 0x111)
                0x123456 Fixture.flash0) !! 0%nat = Some 0xAA
  /\ command (m25p_addr2cmd (pf := Fixture.working) (Fixture.nor 3 0 0x111)
                0x123456 Fixture.flash0) !! 5%nat = Some 0xAA.
Proof.
  assert (Hlen : (5 <= length (command Fixture.flash0))%nat) by (simpl; lia).
  split; [exact Hlen |].
  destruct (m25p_addr2cmd_frame (pf := Fixture.working) (Fixture.nor 3 0 0x111)
              0x123456 Fixture.flash0 Hlen) as (Hkeep & _).
  split.
  - rewrite (Hkeep 0%nat (or_introl eq_refl)). reflexivity.
  - rewrite (Hkeep 5%nat (or_intror (le_n 5))). reflexivity.
Defined.

Lemma m25p80_write_reg_capacity_witness :
  INT_MIN <= 16 < INT_MAX
  /\ m25p80_write_reg (pf := Fixture.working) (Fixture.nor 3 0 0x111)
        Fixture.flash0 0x01 (Some []) 16 = (- EINVAL, Fixture.flash0).
Proof.
  assert (Hn : INT_MIN <= 16 < INT_MAX)
    by (vm_compute; split; [discriminate | reflexivity]).
  split; [exact Hn |].
  destruct (m25p80_write_reg_capacity (pf := Fixture.working)
              (Fixture.nor 3 0 0x111) Fixture.flash0 0x01 [] 16 Hn)
    as [Hrej _].
  apply Hrej. vm_compute. reflexivity.
Defined.

Lemma m25p80_read_reg_returns_received_witness :
  command_sized Fixture.flash0
  /\ 3 + 1 <= MAX_CMD_SIZE
  /\ (m25p80_read_reg (pf := Fixture.working) (Fixture.nor 3 0 0x111)
        Fixture.flash0 0x9f [0; 0; 0; 0x77] 3).2 = [1; 2; 3; 0x77].
Proof.
  assert (Hsz : command_sized Fixture.flash0) by reflexivity.
  assert (Hfit : 3 + 1 <= MAX_CMD_SIZE) by (vm_compute; discriminate).
  split; [exact Hsz |]. split; [exact Hfit |].
  destruct (m25p80_read_reg_returns_received (pf := Fixture.working)
              (Fixture.nor 3 0 0x111) Fixture.flash0 0x9f [0; 0; 0; 0x77] 3
              Hsz ltac:(lia) Hfit ltac:(simpl; lia)
              ltac:(vm_compute; discriminate)
              ltac:(vm_compute; discriminate) ltac:(simpl; lia))
    as (_ & Hval & _).
  exact Hval.
Defined.

Lemma m25p80_write_transaction_witness :
  command_sized Fixture.flash0
  /\ exists msg,
       spi (m25p80_write (pf := Fixture.working) (Fixture.nor 3 0 0x144)
              Fixture.flash0 0x123456 2 0 [0x5A; 0xC3]).2 = [msg]
       /\ len <$> transfers msg = [1; 3; 2]
       /\ take 4 (command_bytes msg) = [0x02; 0x12; 0x34; 0x56]
       /\ caller_bytes msg = [0x5A; 0xC3].
Proof.
  assert (Hsz : command_sized Fixture.flash0) by reflexivity.
  split; [exact Hsz |].
  destruct (m25p80_write_transaction (pf := Fixture.working)
              (Fixture.nor 3 0 0x144) Fixture.flash0 0x123456 2 0 [0x5A; 0xC3]
              Hsz (or_introl eq_refl) eq_refl)
    as (msg & Hspi & Hx & _ & _ & Hbuf & Hcmd & _).
  exists msg. split; [exact Hspi |].
  split; [rewrite Hx; reflexivity |].
  split; [rewrite <- Hcmd; reflexivity | exact Hbuf].
Defined.

Lemma m25p80_read_header_witness :
  command_sized Fixture.flash0
  /\ exists msg,
       spi (m25p80_read (pf := Fixture.working) (Fixture.nor 4 8 0x111)
              Fixture.flash0 0x1234567 16 0 []).1.2 = [msg]
       /\ command_bytes msg !! 0%nat = Some 0x0b
       /\ be_decode (take 4 (drop 1 (command_bytes msg))) = 0x1234567.
Proof.
  assert (Hsz : command_sized Fixture.flash0) by reflexivity.
  split; [exact Hsz |].
  destruct (m25p80_read_header (pf := Fixture.working)
              (Fixture.nor 4 8 0x111) Fixture.flash0 0x1234567 16 0 []
              Hsz (or_intror eq_refl))
    as (msg & Hspi & Hop & Hdec & _).
  exists msg. split; [exact Hspi |]. split; [exact Hop | exact Hdec].
Defined.

Lemma m25p80_read_retlen_witness :
  0 <= 3 <= 255
  /\ 8 * 4 < 2 ^ 32
  /\ (m25p80_read (pf := Fixture.working) (Fixture.nor 3 8 0x144)
        Fixture.flash0 0x001000 256 77 []).1.1.2 = 260 - (1 + 3) - 4.
Proof.
  assert (Haw : 0 <= 3 <= 255) by lia.
  assert (Hprod : 8 * 4 < 2 ^ 32) by (vm_compute; reflexivity).
  split; [exact Haw |]. split; [exact Hprod |].
  destruct (m25p80_read_retlen (pf := Fixture.working)
              (Fixture.nor 3 8 0x144) Fixture.flash0 0x001000 256 77 []
              Haw ltac:(simpl; lia) ltac:(vm_compute; discriminate) Hprod)
    as (_ & msg & _ & Hret).
  apply Hret. vm_compute. discriminate.
Defined.

Lemma m25p80_read_fills_caller_buffer_witness :
  0 <= 2 < 2 ^ 32
  /\ (m25p80_read (pf := Fixture.working) (Fixture.nor 3 0 0x111)
        Fixture.flash0 0 2 0 [9; 9; 9]).2 = [1; 2; 9].
Proof.
  assert (Hn : 0 <= 2 < 2 ^ 32) by (vm_compute; split; [discriminate | reflexivity]).
  split; [exact Hn |].
  destruct (m25p80_read_fills_caller_buffer (pf := Fixture.working)
              (Fixture.nor 3 0 0x111) Fixture.flash0 0 2 0 [9; 9; 9]
              Hn ltac:(simpl; lia))
    as (msg & _ & _ & Hbuf & _).
  exact Hbuf.
Defined.

Lemma erase_write_stay_in_bounds_witness :
  command_sized Fixture.flash0
  /\ overrun (m25p80_erase (pf := Fixture.working) (Fixture.nor 200 0 0x111)
                Fixture.flash0 0x123456).2 = false
  /\ overrun (m25p80_write (pf := Fixture.working) (Fixture.nor 200 0 0x111)
                Fixture.flash0 0x123456 4 0 [1; 2; 3; 4]).2 = false
  /\ command (m25p80_erase (pf := Fixture.working) (Fixture.nor 200 0 0x111)
                Fixture.flash0 0x123456).2 !! 5%nat = Some 0xAA
  /\ command (m25p80_write (pf := Fixture.working) (Fixture.nor 200 0 0x111)
                Fixture.flash0 0x123456 4 0 [1; 2; 3; 4]).2 !! 15%nat = Some 0xAA.
Proof.
  assert (Hsz : command_sized Fixture.flash0) by reflexivity.
  split; [exact Hsz |].
  destruct (erase_write_stay_in_bounds (pf := Fixture.working)
              (Fixture.nor 200 0 0x111) Fixture.flash0 0x123456 4 0 [1; 2; 3; 4] Hsz)
    as (Hoe & How & Hkeep & _).
  split; [exact Hoe |]. split; [exact How |].
  split.
  - rewrite (proj1 (Hkeep 5%nat (le_n 5))). reflexivity.
  - rewrite (proj2 (Hkeep 15%nat ltac:(lia))). reflexivity.
Defined.

Lemma m25p80_read_reg_negative_length_witness :
  command_sized Fixture.flash0
  /\ INT_MIN <= -1 < 0
  /\ exists msg,
       spi (m25p80_read_reg (pf := Fixture.working) (Fixture.nor 3 0 0x111)
              Fixture.flash0 0x9f [0] (-1)).1.2 = [msg]
       /\ len <$> transfers msg = [1; 4294967295]
       /\ overrun (m25p80_read_reg (pf := Fixture.working) (Fixture.nor 3 0 0x111)
                     Fixture.flash0 0x9f [0] (-1)).1.2 = true.
Proof.
  assert (Hsz : command_sized Fixture.flash0) by reflexivity.
  assert (Hn : INT_MIN <= -1 < 0) by (vm_compute; split; [discriminate | reflexivity]).
  split; [exact Hsz |]. split; [exact Hn |].
  destruct (m25p80_read_reg_negative_length (pf := Fixture.working)
              (Fixture.nor 3 0 0x111) Fixture.flash0 0x9f [0] (-1)
              Hsz Hn ltac:(vm_compute; discriminate))
    as (msg & Hspi & Hx & Hov).
  exists msg. split; [exact Hspi |].
  split; [rewrite Hx; reflexivity |].
  apply Hov. vm_compute. discriminate.
Defined.

Lemma m25p80_write_twice_witness :
  0 <= 3 <= 255
  /\ (m25p80_write (pf := Fixture.working) (Fixture.nor 3 0 0x111)
        (m25p80_write (pf := Fixture.working) (Fixture.nor 3 0 0x111)
           Fixture.flash0 0 256 0 []).2
        256 256
        (m25p80_write (pf := Fixture.working) (Fixture.nor 3 0 0x111)
           Fixture.flash0 0 256 0 []).1 []).1 = 0 + (260 - 4) + (260 - 4).
Proof.
  assert (Haw : 0 <= 3 <= 255) by lia.
  split; [exact Haw |].
  destruct (m25p80_write_twice (pf := Fixture.working) (Fixture.nor 3 0 0x111)
              Fixture.flash0 0 256 256 256 0 [] [] Haw)
    as (m1 & m2 & _ & Hret).
  apply Hret; vm_compute; congruence.
Defined.

Lemma header_ignores_stale_bytes_witness :
  command_sized Fixture.flash0
  /\ command_sized MoreFixture.used
  /\ 1 + 3 + 8 * 4 / 8 <= MAX_CMD_SIZE
  /\ (fun msg => take 8 (command_bytes msg))
       <$> last (spi (m25p80_read (pf := Fixture.working) (Fixture.nor 3 8 0x144)
                        Fixture.flash0 0x001000 4 0 []).1.2)
     = (fun msg => take 8 (command_bytes msg))
       <$> last (spi (m25p80_read (pf := Fixture.working) (Fixture.nor 3 8 0x144)
                        MoreFixture.used 0x001000 4 0 []).1.2).
Proof.
  assert (H1 : command_sized Fixture.flash0) by reflexivity.
  assert (H2 : command_sized MoreFixture.used) by reflexivity.
  assert (Hfit : 1 + 3 + 8 * 4 / 8 <= MAX_CMD_SIZE) by (vm_compute; discriminate).
  split; [exact H1 |]. split; [exact H2 |]. split; [exact Hfit |].
  destruct (header_ignores_stale_bytes (pf := Fixture.working)
              (Fixture.nor 3 8 0x144) Fixture.flash0 MoreFixture.used
              0x001000 4 0 [] H1 H2 (or_introl eq_refl) ltac:(simpl; lia) Hfit)
    as (_ & _ & Hread).
  exact Hread.
Defined.
